(** * Prompt-to-JSON Enhancer: the heuristic analyzer and the enrichment endpoint

    A shallow embedding of [prompt_to_json_enhancer.py] (class
    [PromptToJSONEnhancer]) and of [backend/api/server.py]
    ([call_gemini], [enhance_endpoint]), with the properties of the
    specification stated over it.

    Python [str] values are Rocq strings; a character is a code point in
    U+0000..U+00FF, carried by [ascii].  On that range [str.isspace], the
    regular-expression class [\s], [str.lower] and [re.IGNORECASE] are the
    functions below. *)

From Stdlib Require Import Lists.List Bool.Bool Arith.Arith ZArith.ZArith.
From Stdlib Require Import Strings.Ascii Strings.String micromega.Lia.
Import ListNotations.
Open Scope string_scope.

(** ** Python string primitives *)

Module PyStr.

(** [str.isspace] of one character, which is also the class [\s] of [re]
    on [str] patterns: TAB..CR, FS..US, SPACE, NEL and NBSP. *)
Definition isspace (c : ascii) : bool :=
  let n := nat_of_ascii c in
  (((9 <=? n) && (n <=? 13)) || ((28 <=? n) && (n <=? 32))
   || (n =? 133) || (n =? 160))%nat.

(** [str.lower] of one character: A..Z and the Latin-1 capitals
    U+00C0..U+00DE (but the multiplication sign U+00D7) move up by 32. *)
Definition lower_char (c : ascii) : ascii :=
  let n := nat_of_ascii c in
  if (((65 <=? n) && (n <=? 90))
      || ((192 <=? n) && (n <=? 222) && negb (n =? 215)))%nat
  then ascii_of_nat (n + 32) else c.

Fixpoint lower (s : string) : string :=
  match s with
  | "" => ""
  | String c s' => String (lower_char c) (lower s')
  end.

Fixpoint lstrip (s : string) : string :=
  match s with
  | "" => ""
  | String c s' => if isspace c then lstrip s' else s
  end.

Fixpoint rstrip (s : string) : string :=
  match s with
  | "" => ""
  | String c s' =>
      match rstrip s' with
      | "" => if isspace c then "" else String c ""
      | r => String c r
      end
  end.

(** [s.strip()] *)
Definition strip (s : string) : string := rstrip (lstrip s).

(** [sub in s] *)
Fixpoint contains (sub s : string) : bool :=
  prefix sub s
  || match s with
     | "" => false
     | String _ s' => contains sub s'
     end.

(** [s.find(c)] for a one-character needle: the first index, or -1. *)
Fixpoint find_char (c : ascii) (s : string) : Z :=
  match s with
  | "" => (-1)%Z
  | String d s' =>
      if Ascii.eqb d c then 0%Z
      else let i := find_char c s' in
           if (i =? -1)%Z then (-1)%Z else (i + 1)%Z
  end.

(** [s.rfind(c)] for a one-character needle: the last index, or -1. *)
Fixpoint rfind_char (c : ascii) (s : string) : Z :=
  match s with
  | "" => (-1)%Z
  | String d s' =>
      let i := rfind_char c s' in
      if (i =? -1)%Z then (if Ascii.eqb d c then 0%Z else (-1)%Z)
      else (i + 1)%Z
  end.

(** [s[i:j]] for [0 <= i] and [0 <= j]. *)
Definition slice (i j : Z) (s : string) : string :=
  substring (Z.to_nat i) (Z.to_nat (j - i)) s.

(** [s[:n]] *)
Fixpoint take (n : nat) (s : string) : string :=
  match n, s with
  | S n', String c s' => String c (take n' s')
  | _, _ => ""
  end.

(** [s[n:]] *)
Fixpoint drop (n : nat) (s : string) : string :=
  match n, s with
  | S n', String _ s' => drop n' s'
  | _, _ => s
  end.

End PyStr.
Import PyStr.

(** ** The fragment of [re] the program uses

    Literals, [.], [\s], [^], [$], concatenation, alternation, the
    quantifiers [+] and [+?] over a character class, and one capturing
    group.  Matching is by backtracking in the order of [re]: the
    alternatives of [|] left to right, [+] longest first, [+?] shortest
    first.  No flag but [re.IGNORECASE] is ever passed, so [.] excludes the
    newline, [^] holds at the start of the subject only, and [$] holds at
    its end or before a newline that ends it. *)

Module Re.

Inductive cclass : Type :=
| Any      (* .  *)
| Space.   (* \s *)

Inductive regex : Type :=
| Eps                                 (* the empty pattern *)
| Lit (c : ascii)
| Bol                                 (* ^ *)
| Eol                                 (* $ *)
| Cat (r1 r2 : regex)
| Alt (r1 r2 : regex)
| Plus (greedy : bool) (cl : cclass)  (* cl+ and cl+? *)
| Group (r : regex).                  (* ( r ), group 1 *)

(** The pattern of a string without metacharacters. *)
Fixpoint word (w : string) : regex :=
  match w with
  | "" => Eps
  | String c w' => Cat (Lit c) (word w')
  end.

Definition newline : ascii := "010"%char.

Definition class_ok (cl : cclass) (c : ascii) : bool :=
  match cl with
  | Any => negb (Ascii.eqb c newline)
  | Space => isspace c
  end.

Definition lit_ok (icase : bool) (p c : ascii) : bool :=
  if icase then Ascii.eqb (lower_char c) (lower_char p) else Ascii.eqb c p.

(** The matcher's state: what is left of the subject, and group 1. *)
Record mstate : Type := MState { rest : string; grp : option string }.

Section Matcher.
Variable icase : bool.   (* re.IGNORECASE *)
Variable total : nat.    (* len(subject) *)
Context {R : Type}.

Fixpoint plus_loop (greedy : bool) (cl : cclass) (k : mstate -> option R)
         (g : option string) (s : string) {struct s} : option R :=
  match s with
  | "" => None
  | String c s' =>
      if class_ok cl c then
        if greedy then
          match plus_loop greedy cl k g s' with
          | Some x => Some x
          | None => k (MState s' g)
          end
        else
          match k (MState s' g) with
          | Some x => Some x
          | None => plus_loop greedy cl k g s'
          end
      else None
  end.

Fixpoint rmatch (r : regex) (k : mstate -> option R) (st : mstate)
  : option R :=
  match r with
  | Eps => k st
  | Lit p =>
      match rest st with
      | String c s' => if lit_ok icase p c then k (MState s' (grp st))
                       else None
      | "" => None
      end
  | Bol => if (length (rest st) =? total)%nat then k st else None
  | Eol =>
      match rest st with
      | "" => k st
      | String c "" => if Ascii.eqb c newline then k st else None
      | _ => None
      end
  | Cat r1 r2 => rmatch r1 (rmatch r2 k) st
  | Alt r1 r2 =>
      match rmatch r1 k st with
      | Some x => Some x
      | None => rmatch r2 k st
      end
  | Plus greedy cl => plus_loop greedy cl k (grp st) (rest st)
  | Group r1 =>
      rmatch r1
        (fun st' =>
           k (MState (rest st')
                (Some (take (length (rest st) - length (rest st'))
                         (rest st)))))
        st
  end.
End Matcher.

(** A match at the start of [s], [s] being a suffix of a subject of
    length [total]: the state at the end of the match. *)
Definition match_here (icase : bool) (total : nat) (r : regex) (s : string)
  : option mstate :=
  rmatch icase total r (fun st => Some st) (MState s None).

Fixpoint search_from (icase : bool) (total : nat) (r : regex) (s : string)
  : option mstate :=
  match match_here icase total r s with
  | Some st => Some st
  | None =>
      match s with
      | "" => None
      | String _ s' => search_from icase total r s'
      end
  end.

(** [re.search(r, s, flags)]: the leftmost match. *)
Definition search (icase : bool) (r : regex) (s : string) : option mstate :=
  search_from icase (length s) r s.

(** [m.group(1)]; every pattern it is asked of has its group on every
    path, see [group1_of_question]. *)
Definition group1 (m : mstate) : string :=
  match grp m with Some g => g | None => "" end.

(** [re.sub]: [skip] counts the characters of the current match still to
    be dropped.  An empty match is replaced and one character copied. *)
Fixpoint sub_go (icase : bool) (total : nat) (r : regex) (repl : string)
         (skip : nat) (s : string) {struct s} : string :=
  match skip with
  | S k =>
      match s with
      | "" => ""
      | String _ s' => sub_go icase total r repl k s'
      end
  | 0 =>
      match match_here icase total r s with
      | Some st =>
          repl ++
          match length s - length (rest st), s with
          | _, "" => ""
          | 0, String c s' => String c (sub_go icase total r repl 0 s')
          | S k, String _ s' => sub_go icase total r repl k s'
          end
      | None =>
          match s with
          | "" => ""
          | String c s' => String c (sub_go icase total r repl 0 s')
          end
      end
  end.

(** [re.sub(r, repl, s, flags=...)] *)
Definition sub (icase : bool) (r : regex) (repl s : string) : string :=
  sub_go icase (length s) r repl 0 s.

End Re.
Import Re.

(** ** The heuristic analyzer: class [PromptToJSONEnhancer]

    The logger calls of the methods write to a file and to the console and
    return nothing the methods use; they are left out. *)

Module Enhancer.

(** [self.context_keywords], a dict: its items in insertion order. *)
Definition context_keywords : list (string * list string) :=
  [ ("technical",
      ["code"; "programming"; "algorithm"; "software"; "development"]);
    ("educational", ["explain"; "teach"; "learn"; "understand"; "concept"]);
    ("creative", ["write"; "story"; "poem"; "creative"; "imagine"]);
    ("analytical", ["analyze"; "compare"; "evaluate"; "assess"; "critique"]);
    ("business",
      ["strategy"; "business"; "marketing"; "finance"; "management"]) ].

(** [d.get(key)] on a dict held as its items. *)
Fixpoint dict_get {V : Type} (d : list (string * V)) (key : string)
  : option V :=
  match d with
  | [] => None
  | (k, v) :: d' => if String.eqb k key then Some v else dict_get d' key
  end.

(** *** [clean_prompt] *)

(** [r'\s+'] *)
Definition whitespace_run : regex := Plus true Space.

Definition filler_words : list string :=
  ["please"; "can you"; "could you"; "i need"; "i want"].

(** [f'^{word}\\s+'] *)
Definition filler_pattern (w : string) : regex :=
  Cat Bol (Cat (word w) (Plus true Space)).

Definition clean_prompt (prompt : string) : string :=
  let cleaned := Re.sub false whitespace_run " " (strip prompt) in
  fold_left
    (fun cleaned w => Re.sub true (filler_pattern w) "" cleaned)
    filler_words cleaned.

(** *** [detect_context] *)

(** [sum(1 for keyword in keywords if keyword in prompt_lower)] *)
Definition keyword_score (keywords : list string) (prompt_lower : string)
  : nat :=
  list_sum
    (map (fun _ => 1)
       (filter (fun keyword => contains keyword prompt_lower) keywords)).

(** The loop that fills [context_scores], a dict with one fresh key per
    iteration: its items in insertion order. *)
Definition context_scores (prompt_lower : string) : list (string * nat) :=
  map (fun '(context, keywords) =>
         (context, keyword_score keywords prompt_lower))
    context_keywords.

(** [max(iterable, key=...)] after its first element: a later element
    replaces the best one only when its key is strictly greater. *)
Fixpoint max_from {A : Type} (key : A -> nat) (best : A) (l : list A) : A :=
  match l with
  | [] => best
  | x :: l' => max_from key (if (key best <? key x)%nat then x else best) l'
  end.

(** [context_scores.get] as the key of [max]; it is only asked of the keys
    of [context_scores]. *)
Definition score_of (scores : list (string * nat)) (context : string)
  : nat :=
  match dict_get scores context with Some n => n | None => 0 end.

Definition detect_context (prompt : string) : string :=
  let prompt_lower := lower prompt in
  let scores := context_scores prompt_lower in
  match map fst scores with
  | [] => "general"
  | c :: cs =>
      let best_context := max_from (score_of scores) c cs in
      if (0 <? score_of scores best_context)%nat then best_context
      else "general"
  end.

(** *** [extract_problem] *)

(** [(.+?)(?:\?|$)] *)
Definition question_tail : regex :=
  Cat (Group (Plus false Any)) (Alt (Lit "?") Eol).

Definition question_patterns : list regex :=
  [ (* what (?:is|are|was|were) (.+?)(?:\?|$) *)
    Cat (word "what ")
      (Cat (Alt (word "is") (Alt (word "are") (Alt (word "was")
                                                  (word "were"))))
         (Cat (Lit " ") question_tail));
    (* how (?:do|does|can|should) (.+?)(?:\?|$) *)
    Cat (word "how ")
      (Cat (Alt (word "do") (Alt (word "does") (Alt (word "can")
                                                  (word "should"))))
         (Cat (Lit " ") question_tail));
    (* why (?:is|are|does) (.+?)(?:\?|$) *)
    Cat (word "why ")
      (Cat (Alt (word "is") (Alt (word "are") (word "does")))
         (Cat (Lit " ") question_tail));
    (* explain (.+?)(?:\?|$) *)
    Cat (word "explain ") question_tail;
    (* describe (.+?)(?:\?|$) *)
    Cat (word "describe ") question_tail;
    (* compare (.+?)(?:\?|$) *)
    Cat (word "compare ") question_tail;
    (* analyze (.+?)(?:\?|$) *)
    Cat (word "analyze ") question_tail ].

(** The loop over the patterns; [prompt] is returned when none matches. *)
Fixpoint first_question (patterns : list regex) (prompt : string) : string :=
  match patterns with
  | [] => prompt
  | pattern :: patterns' =>
      match Re.search true pattern prompt with
      | Some m => strip (group1 m)
      | None => first_question patterns' prompt
      end
  end.

Definition extract_problem (prompt : string) : string :=
  first_question question_patterns prompt.

(** *** [determine_solution_approach] *)

Definition context_approaches : list (string * string) :=
  [ ("technical",
      "Provide technical explanation with examples and best practices");
    ("educational",
      "Give clear, step-by-step explanation suitable for learning");
    ("creative", "Offer creative suggestions and examples");
    ("analytical",
      "Present detailed analysis with pros/cons and conclusions");
    ("business", "Focus on practical applications and business value");
    ("general", "Provide comprehensive information covering key aspects") ].

(** [context_approaches.get(context, context_approaches["general"])] *)
Definition determine_solution_approach (prompt context : string) : string :=
  match dict_get context_approaches context with
  | Some a => a
  | None => "Provide comprehensive information covering key aspects"
  end.

(** *** [suggest_output_format] *)

Definition format_keywords : list (string * string) :=
  [ ("bullet", "bullet points");
    ("list", "bullet points");
    ("step", "step-by-step guide");
    ("table", "table format");
    ("compare", "comparative analysis");
    ("summary", "summary");
    ("code", "code example");
    ("essay", "essay format") ].

Definition context_formats : list (string * string) :=
  [ ("technical", "detailed explanation");
    ("educational", "step-by-step guide");
    ("creative", "essay format");
    ("analytical", "comparative analysis");
    ("business", "summary");
    ("general", "detailed explanation") ].

(** The loop over [format_keywords.items()]: the first hit returns. *)
Fixpoint first_format (items : list (string * string))
         (prompt_lower : string) : option string :=
  match items with
  | [] => None
  | (keyword, format_type) :: items' =>
      if contains keyword prompt_lower then Some format_type
      else first_format items' prompt_lower
  end.

Definition suggest_output_format (prompt context : string) : string :=
  let prompt_lower := lower prompt in
  match first_format format_keywords prompt_lower with
  | Some format_type => format_type
  | None =>
      match dict_get context_formats context with
      | Some f => f
      | None => "detailed explanation"
      end
  end.

(** *** [analyze_prompt] *)

(** A dict with the four keys of a structured prompt, in this order. *)
Record prompt_fields (V : Type) : Type := Fields {
  context : V;
  problem : V;
  expected_solution : V;
  output_format : V
}.
Arguments Fields {V} _ _ _ _.
Arguments context {V} _.
Arguments problem {V} _.
Arguments expected_solution {V} _.
Arguments output_format {V} _.

Definition analyze_prompt (prompt : string) : prompt_fields string :=
  let cleaned_prompt := clean_prompt prompt in
  let context := detect_context cleaned_prompt in
  let problem := extract_problem cleaned_prompt in
  let expected_solution :=
    determine_solution_approach cleaned_prompt context in
  let output_format := suggest_output_format cleaned_prompt context in
  Fields context problem expected_solution output_format.

(** *** [enhance_prompt] *)

(** The dict of an enhancement: [original_prompt], [enhanced_prompt],
    [metadata], in this order. *)
Record enhancement (V : Type) : Type := Enhancement {
  original_prompt : string;
  enhanced_prompt : prompt_fields V;
  metadata : list (string * string)
}.
Arguments Enhancement {V} _ _ _.
Arguments original_prompt {V} _.
Arguments enhanced_prompt {V} _.
Arguments metadata {V} _.

(** [now] is [datetime.now().isoformat()].  The [try] re-raises what
    [analyze_prompt] raises, which is nothing. *)
Definition enhance_prompt (now prompt : string) : enhancement string :=
  let analysis := analyze_prompt prompt in
  Enhancement prompt
    (Fields (context analysis) (problem analysis)
       (expected_solution analysis) (output_format analysis))
    [ ("timestamp", now);
      ("enhancement_version", "1.0.0");
      ("processing_time", "N/A") ].

End Enhancer.
Import Enhancer.


(** ** The enrichment endpoint: [backend/api/server.py] *)

Module Server.

Set Warnings "-register-all".

(** What [json.loads] returns.  An object is a dict, held as its items;
    a number is held as an integer, of which the program only ever asks
    whether it is zero. *)
Inductive json : Type :=
| JNull
| JBool (b : bool)
| JNum (n : Z)
| JStr (s : string)
| JArr (l : list json)
| JObj (items : list (string * json)).

(** Truth value of a Python object, as [or] tests it. *)
Definition truthy (v : json) : bool :=
  match v with
  | JNull => false
  | JBool b => b
  | JNum n => negb (n =? 0)%Z
  | JStr s => negb (s =? "")
  | JArr l => match l with [] => false | _ => true end
  | JObj items => match items with [] => false | _ => true end
  end.

(** [k in data]: a key of a dict, an element of a list, a substring of a
    str; [None] is the [TypeError] of the other types. *)
Definition py_in (k : string) (data : json) : option bool :=
  match data with
  | JObj items =>
      Some (match dict_get items k with Some _ => true | None => false end)
  | JArr l =>
      Some (existsb
              (fun v => match v with JStr s => s =? k | _ => false end) l)
  | JStr s => Some (contains k s)
  | _ => None
  end.

(** [all(k in data for k in keys)] *)
Fixpoint all_in (keys : list string) (data : json) : option bool :=
  match keys with
  | [] => Some true
  | k :: keys' =>
      match py_in k data with
      | None => None
      | Some false => Some false
      | Some true => all_in keys' data
      end
  end.

Definition required_keys : list string :=
  ["context"; "problem"; "expected_solution"; "output_format"].

(** What the calls on [genai] inside the [try] come to: an exception, or
    a result with or without the attribute [text]. *)
Inductive generation : Type :=
| GenRaises
| GenResult (text : option string).

(** What the module reads from outside itself. *)
Record env : Type := Env {
  GEMINI_API_KEY : option string;       (* os.getenv(...) or os.getenv(...) *)
  genai : bool;                         (* the import succeeded *)
  generate_content : list string -> generation;
  json_loads : string -> option json;   (* None: json.loads raises *)
  now : string                          (* datetime.now().isoformat() *)
}.

Definition system_message : string :=
  "You are a prompt engineering assistant. Convert the user's plain prompt into a"
  ++ " structured JSON with fields: context, problem, expected_solution, output_format."
  ++ " Keep responses concise and accurate. Respond ONLY with JSON.".

Definition user_message (prompt : string) : string :=
  "Plain prompt: " ++ prompt ++ String newline
    "Return JSON with keys: context, problem, expected_solution, output_format.".

(** The dict [call_gemini] returns. *)
Record llm_result : Type := LLMResult {
  llm_original_prompt : string;
  llm_enhanced_prompt : json;
  llm_metadata : list (string * string)
}.

Definition key_missing (e : env) : bool :=
  match GEMINI_API_KEY e with
  | None => true
  | Some key => key =? ""
  end.

(** [None] is the Python [None] of the three [return None]. *)
Definition call_gemini (e : env) (prompt : string) : option llm_result :=
  if key_missing e || negb (genai e) then None
  else
    match generate_content e [system_message; user_message prompt] with
    | GenRaises => None
    | GenResult result_text =>
        let text :=
          match result_text with Some t => strip t | None => "" end in
        let start := find_char "{" text in
        let end_ := rfind_char "}" text in
        let text :=
          if negb (start =? -1)%Z && negb (end_ =? -1)%Z
          then slice start (end_ + 1) text else text in
        match json_loads e text with
        | None => None
        | Some data =>
            match all_in required_keys data with
            | None => None
            | Some false => None
            | Some true =>
                Some (LLMResult prompt data [("source", "gemini")])
            end
        end
    end.

(** [d[key] = value] on a dict held as its items. *)
Fixpoint dict_set (d : list (string * string)) (key value : string)
  : list (string * string) :=
  match d with
  | [] => [(key, value)]
  | (k, v) :: d' =>
      if k =? key then (k, value) :: d' else (k, v) :: dict_set d' key value
  end.

(** [x or y], [x] being the result of a [dict.get]. *)
Definition py_or (x : option json) (y : json) : json :=
  match x with
  | Some v => if truthy v then v else y
  | None => y
  end.

(** How a call of the endpoint ends. *)
Inductive outcome : Type :=
| Returned (r : enhancement json)
| HTTPException (status_code : nat) (detail : string)
| Unhandled (exception : string).

Definition as_json (f : prompt_fields string) : prompt_fields json :=
  Fields (JStr (context f)) (JStr (problem f))
    (JStr (expected_solution f)) (JStr (output_format f)).

Definition enhance_endpoint (e : env) (prompt : string) : outcome :=
  if (prompt =? "") || (strip prompt =? "") then
    HTTPException 400 "Prompt is required"
  else
    match call_gemini e prompt with
    | None =>
        let enhanced := enhance_prompt (now e) prompt in
        Returned
          (Enhancement (original_prompt enhanced)
             (as_json (enhanced_prompt enhanced))
             (dict_set (metadata enhanced) "source" "local"))
    | Some llm =>
        let local_hint := analyze_prompt prompt in
        match llm_enhanced_prompt llm with
        | JObj items =>
            Returned
              (Enhancement prompt
                 (Fields
                    (py_or (dict_get items "context")
                       (JStr (context local_hint)))
                    (py_or (dict_get items "problem")
                       (JStr (problem local_hint)))
                    (py_or (dict_get items "expected_solution")
                       (JStr (expected_solution local_hint)))
                    (py_or (dict_get items "output_format")
                       (JStr (output_format local_hint))))
                 [("source", "gemini+local")])
        | _ => Unhandled "AttributeError"   (* no method [get] *)
        end
    end.

End Server.
Import Server.

(** ** Notions the properties are stated with *)

Module Notions.

(** [w] is read at the start of [s], character by character, the way the
    matcher reads literals. *)
Fixpoint starts_with (icase : bool) (w s : string) : bool :=
  match w, s with
  | "", _ => true
  | String p w', String c s' => lit_ok icase p c && starts_with icase w' s'
  | String _ _, "" => false
  end.

(** [s] without its leading characters of the class [cl]. *)
Fixpoint skip_class (cl : cclass) (s : string) : string :=
  match s with
  | "" => ""
  | String c s' => if class_ok cl c then skip_class cl s' else s
  end.

(** [r] is what is left of [s] after some prefix. *)
Definition suffix_of (r s : string) : Prop := exists pre, s = pre ++ r.

(** Every whitespace character of [s] is a space, and is followed by a
    character that is not whitespace. *)
Fixpoint spaced (s : string) : bool :=
  match s with
  | "" => true
  | String c s' =>
      (if isspace c
       then Ascii.eqb c " "
            && match s' with
               | "" => false
               | String d _ => negb (isspace d)
               end
       else true)
      && spaced s'
  end.

(** [s] does not start with whitespace. *)
Definition no_leading_ws (s : string) : bool :=
  match s with
  | "" => true
  | String c _ => negb (isspace c)
  end.

(** Words separated by single spaces: what whitespace collapsing and
    trimming leave. *)
Definition tidy (s : string) : bool := no_leading_ws s && spaced s.

(** The text follows the filler [w] with whitespace after it. *)
Definition begins_with_filler (w t : string) : bool :=
  starts_with true w t
  && match drop (String.length w) t with
     | String c _ => isspace c
     | "" => false
     end.

(** [t] without the leading filler [w] and the whitespace after it, when
    it begins with them. *)
Definition strip_filler (w t : string) : string :=
  if begins_with_filler w t then lstrip (drop (String.length w) t) else t.

(** Whitespace collapsing of a trimmed text, as [clean_prompt] does it. *)
Definition collapse (s : string) : string :=
  Re.sub false whitespace_run " " s.

(** The normalization as the specification words it: of the fillers, only
    the first one that the text begins with is removed. *)
Definition strip_first_filler (t : string) : string :=
  match find (fun w => begins_with_filler w t) filler_words with
  | Some w => strip_filler w t
  | None => t
  end.

Definition spec_normalize (prompt : string) : string :=
  strip_first_filler (collapse (strip prompt)).

(** Every character of [s] is whitespace. *)
Fixpoint all_space (s : string) : bool :=
  match s with
  | "" => true
  | String c s' => isspace c && all_space s'
  end.

(** No two whitespace characters in a row. *)
Fixpoint no_ws_run (s : string) : bool :=
  match s with
  | "" => true
  | String c s' =>
      negb (isspace c
            && match s' with String d _ => isspace d | "" => false end)
      && no_ws_run s'
  end.

(** The only whitespace characters of [s] are spaces. *)
Fixpoint only_spaces (s : string) : bool :=
  match s with
  | "" => true
  | String c s' => (negb (isspace c) || Ascii.eqb c " ") && only_spaces s'
  end.

(** An already-normalized text: no leading or trailing whitespace, no run
    of consecutive whitespace, no filler prefix followed by whitespace. *)
Definition normalized (s : string) : Prop :=
  strip s = s
  /\ no_ws_run s = true
  /\ existsb (fun w => begins_with_filler w s) filler_words = false.

Definition tab : ascii := "009"%char.

(** "Explain" and "recursion" with a tab character between them. *)
Definition tabbed_prompt : string := "Explain" ++ String tab "recursion".

(** The categories in the order of the table. *)
Definition categories : list string :=
  ["technical"; "educational"; "creative"; "analytical"; "business"].

(** How many of the keywords occur in the lower-cased text, each counted
    once. *)
Definition keyword_count (keywords : list string) (text_lower : string)
  : nat :=
  List.length (filter (fun keyword => contains keyword text_lower) keywords).

Definition category_score (category text : string) : nat :=
  match dict_get context_keywords category with
  | Some keywords => keyword_count keywords (lower text)
  | None => 0
  end.

(** [sub] occurs in [s]. *)
Definition occurs (sub s : string) : Prop :=
  exists pre post, s = pre ++ sub ++ post.

(** [keyword] occurs in [text] when case is ignored. *)
Definition occurs_ci (keyword text : string) : Prop :=
  exists pre mid post, text = pre ++ mid ++ post /\ lower mid = keyword.

(** The part of the service's text that is parsed: from the first opening
    brace to the last closing one when both are there. *)
Definition json_part (text : string) : string :=
  let start := find_char "{" text in
  let end_ := rfind_char "}" text in
  if negb (start =? -1)%Z && negb (end_ =? -1)%Z
  then slice start (end_ + 1) text else text.

(** [x or y] on a value that is there. *)
Definition or_else (v : json) (local : string) : json :=
  if truthy v then v else JStr local.

(** *** Replies of the service used as examples *)

Definition dq : string := String "034"%char "".

Definition quoted (s : string) : string := dq ++ s ++ dq.

(** A [json.loads] known at one text, and raising on every other. *)
Definition loads_at (text : string) (data : json) : string -> option json :=
  fun t => if t =? text then Some data else None.

(** A configured service that gives [reply] to every request. *)
Definition service_env (reply : generation)
           (loads : string -> option json) : env :=
  Env (Some "secret") true (fun _ => reply) loads "2025-01-01T00:00:00".

(** No credential at all. *)
Definition local_env : env :=
  Env None true (fun _ => GenRaises) (fun _ => None) "2025-01-01T00:00:00".

(** The JSON array of the names of the four keys. *)
Definition array_text : string :=
  "[" ++ quoted "context" ++ ", " ++ quoted "problem" ++ ", "
  ++ quoted "expected_solution" ++ ", " ++ quoted "output_format" ++ "]".

Definition array_data : json :=
  JArr [JStr "context"; JStr "problem"; JStr "expected_solution";
        JStr "output_format"].

Definition array_env : env :=
  service_env (GenResult (Some array_text)) (loads_at array_text array_data).

(** A JSON object with the four keys, [output_format] empty. *)
Definition object_text : string :=
  "{" ++ quoted "context" ++ ": " ++ quoted "physics" ++ ", "
  ++ quoted "problem" ++ ": " ++ quoted "why the sky is blue" ++ ", "
  ++ quoted "expected_solution" ++ ": " ++ quoted "a short explanation"
  ++ ", " ++ quoted "output_format" ++ ": " ++ quoted "" ++ "}".

Definition object_data : json :=
  JObj [ ("context", JStr "physics");
         ("problem", JStr "why the sky is blue");
         ("expected_solution", JStr "a short explanation");
         ("output_format", JStr "") ].

(** The object, with prose around it. *)
Definition object_env : env :=
  service_env (GenResult (Some ("Here it is: " ++ object_text ++ " Done.")))
    (loads_at object_text object_data).

(** A prompt with a filler and irregular whitespace. *)
Definition untidy_prompt : string := "  Please   explain why the sky  is blue ".

End Notions.
Import Notions.

(** ** The rest of the program *)

(** The health endpoint of [backend/api/server.py]. *)

Module Health.

(** The dict [health] returns. *)
Record report : Type := Report { status : string; gemini : bool }.

(** [bool(GEMINI_API_KEY and genai is not None)] *)
Definition health (e : env) : report :=
  Report "ok"
    (match GEMINI_API_KEY e with
     | None => false
     | Some key => if key =? "" then false else genai e
     end).

End Health.
Import Health.

(** [self.output_formats] of [PromptToJSONEnhancer.__init__]. *)

Module Vocabulary.

Definition output_formats : list string :=
  [ "detailed explanation"; "bullet points"; "step-by-step guide";
    "comparative analysis"; "summary"; "code example"; "table format";
    "essay format" ].

End Vocabulary.
Import Vocabulary.

(** [setup.py]. *)

Module Setup.

(** [read_requirements], on the lines the open file yields:
    [[line.strip() for line in fh
      if line.strip() and not line.startswith("#")]]. *)
Definition read_requirements (lines : list string) : list string :=
  map strip
    (filter (fun line => negb (strip line =? "") && negb (prefix "#" line))
       lines).

End Setup.
Import Setup.

(** The distributions [main] of [quick_test.py] prints. *)

Module QuickTest.

(** [d[key] = value] on a dict held as its items. *)
Fixpoint dict_put {V : Type} (d : list (string * V)) (key : string)
         (value : V) : list (string * V) :=
  match d with
  | [] => [(key, value)]
  | (k, v) :: d' =>
      if k =? key then (k, value) :: d' else (k, v) :: dict_put d' key value
  end.

(** One turn of [counts[x] = counts.get(x, 0) + 1]. *)
Definition count_one (counts : list (string * nat)) (x : string)
  : list (string * nat) :=
  dict_put counts x
    (match dict_get counts x with Some n => n | None => 0 end + 1).

(** The loop over [contexts], and over [formats], from an empty dict. *)
Definition tally (xs : list string) : list (string * nat) :=
  fold_left count_one xs [].

(** [context_counts] for the prompts that were enhanced. *)
Definition context_counts (now : string) (prompts : list string)
  : list (string * nat) :=
  tally (map (fun p => context (enhanced_prompt (enhance_prompt now p)))
           prompts).

(** [format_counts] for the prompts that were enhanced. *)
Definition format_counts (now : string) (prompts : list string)
  : list (string * nat) :=
  tally (map (fun p => output_format (enhanced_prompt (enhance_prompt now p)))
           prompts).

End QuickTest.
Import QuickTest.

(** Further notions the properties are stated with. *)

Module MoreNotions.

(** The character [c] does not occur in [s]. *)
Fixpoint char_free (c : ascii) (s : string) : bool :=
  match s with
  | "" => true
  | String d s' => negb (Ascii.eqb d c) && char_free c s'
  end.

(** The literal word each question pattern starts with. *)
Definition lead_words : list string :=
  ["what "; "how "; "why "; "explain "; "describe "; "compare "; "analyze "].

(** The local answer of the endpoint for [prompt]. *)
Definition local_answer (e : env) (prompt : string) : enhancement json :=
  Enhancement prompt (as_json (analyze_prompt prompt))
    [ ("timestamp", now e); ("enhancement_version", "1.0.0");
      ("processing_time", "N/A"); ("source", "local") ].

(** The text of a generation result: [result.text.strip()], or [""]. *)
Definition reply_text (result_text : option string) : string :=
  match result_text with Some t => strip t | None => "" end.

(** [data] is a list or a str in which all four key names are found. *)
Definition names_without_keys (data : json) : Prop :=
  (exists l, data = JArr l /\ forall k, In k required_keys -> In (JStr k) l)
  \/ (exists s, data = JStr s
                /\ forall k, In k required_keys -> contains k s = true).

(** How often [x] is in [xs]. *)
Fixpoint occurrences (x : string) (xs : list string) : nat :=
  match xs with
  | [] => 0
  | y :: xs' => (if y =? x then 1 else 0) + occurrences x xs'
  end.

(** A pattern that starts with the word [w] only matches where [w] is
    read. *)
Definition led_by (p : regex) (w : string) : Prop :=
  lower w = w
  /\ forall (total : nat) (s : string) (m : mstate),
      match_here true total p s = Some m -> starts_with true w s = true.

(** Group 1, when it is set, is a part of the subject [t]. *)
Definition grp_in (t : string) (st : mstate) : Prop :=
  forall g, grp st = Some g -> occurs g t.

(** The characters of [s] that are not whitespace, in their order. *)
Fixpoint nonspace (s : string) : string :=
  match s with
  | "" => ""
  | String c s' => if isspace c then nonspace s' else String c (nonspace s')
  end.

End MoreNotions.
Import MoreNotions.

(** ** Facts on strings *)

Section StringFacts.

Lemma append_nil_r (s : string) : s ++ "" = s.
Proof. induction s as [|c s IH]; simpl; [reflexivity | now rewrite IH]. Qed.

Lemma append_assoc (a b c : string) : (a ++ b) ++ c = a ++ b ++ c.
Proof. induction a as [|x a IH]; simpl; [reflexivity | now rewrite IH]. Qed.

Lemma length_append (a b : string) :
  String.length (a ++ b) = String.length a + String.length b.
Proof. induction a as [|x a IH]; simpl; [reflexivity | now rewrite IH]. Qed.

Lemma drop_append (a b : string) : drop (String.length a) (a ++ b) = b.
Proof. induction a as [|x a IH]; simpl; [now destruct b | exact IH]. Qed.

Lemma drop_0 (s : string) : drop 0 s = s.
Proof. now destruct s. Qed.

Lemma take_append (a b : string) : take (String.length a) (a ++ b) = a.
Proof.
  induction a as [|x a IH]; simpl; [now destruct b | now rewrite IH].
Qed.

Lemma drop_suffix (n : nat) (s : string) : suffix_of (drop n s) s.
Proof.
  revert n; induction s as [|c s IH]; intros [|n]; simpl;
    try (now exists "").
  destruct (IH n) as [pre E]. exists (String c pre). simpl. now rewrite <- E.
Qed.

Lemma suffix_of_refl (s : string) : suffix_of s s.
Proof. now exists "". Qed.

Lemma suffix_of_trans (a b c : string) :
  suffix_of a b -> suffix_of b c -> suffix_of a c.
Proof.
  intros [p E] [q F]. exists (q ++ p). now rewrite append_assoc, <- E.
Qed.

Lemma suffix_of_tail (c : ascii) (s : string) : suffix_of s (String c s).
Proof. now exists (String c ""). Qed.

Lemma suffix_of_length (r s : string) :
  suffix_of r s -> String.length r <= String.length s.
Proof. intros [p ->]. rewrite length_append. lia. Qed.

Lemma drop_to_suffix (r s : string) :
  suffix_of r s -> drop (String.length s - String.length r) s = r.
Proof.
  intros [p ->]. rewrite length_append.
  replace (String.length p + String.length r - String.length r)
    with (String.length p) by lia.
  apply drop_append.
Qed.

Lemma take_to_suffix (p r : string) :
  take (String.length (p ++ r) - String.length r) (p ++ r) = p.
Proof.
  rewrite length_append.
  replace (String.length p + String.length r - String.length r)
    with (String.length p) by lia.
  apply take_append.
Qed.

Lemma lstrip_suffix (s : string) : suffix_of (lstrip s) s.
Proof.
  induction s as [|c s IH]; simpl; [apply suffix_of_refl|].
  destruct (isspace c); [|apply suffix_of_refl].
  eapply suffix_of_trans; [exact IH | apply suffix_of_tail].
Qed.

Lemma lstrip_skip (s : string) : lstrip s = skip_class Space s.
Proof.
  induction s as [|c s IH]; simpl; [reflexivity|].
  now destruct (isspace c).
Qed.

Lemma lstrip_no_leading_ws (s : string) : no_leading_ws (lstrip s) = true.
Proof.
  induction s as [|c s IH]; simpl; [reflexivity|].
  destruct (isspace c) eqn:E; [exact IH | simpl; now rewrite E].
Qed.

Lemma lstrip_id (s : string) : no_leading_ws s = true -> lstrip s = s.
Proof.
  destruct s as [|c s]; simpl; [reflexivity|].
  now destruct (isspace c).
Qed.

Lemma rstrip_cons_ne (c : ascii) (s : string) :
  isspace c = false -> rstrip (String c s) <> "".
Proof. intros E. simpl. destruct (rstrip s); [now rewrite E | discriminate]. Qed.

Lemma strip_cons_ne (c : ascii) (s : string) :
  isspace c = false -> strip (String c s) <> "".
Proof.
  intros E. unfold strip. simpl. rewrite E. now apply rstrip_cons_ne.
Qed.

Lemma spaced_suffix (r s : string) :
  suffix_of r s -> spaced s = true -> spaced r = true.
Proof.
  intros [p ->]. induction p as [|c p IH]; simpl; [trivial|].
  intros H. apply andb_prop in H. now apply IH.
Qed.

Lemma spaced_after_space (c d : ascii) (s : string) :
  isspace c = true -> spaced (String c (String d s)) = true ->
  isspace d = false.
Proof.
  intros E H. cbn [spaced] in H. rewrite E in H.
  apply andb_prop in H. destruct H as [H _].
  apply andb_prop in H. destruct H as [_ H].
  now apply negb_true_iff.
Qed.

End StringFacts.

(** ** Facts on the matcher *)

Section MatcherFacts.

Variable icase : bool.
Variable total : nat.

Lemma mstate_eta (st : mstate) : MState (rest st) (grp st) = st.
Proof. now destruct st. Qed.

(** A literal word is read by [starts_with]. *)
Lemma rmatch_word {R : Type} (w : string) (k : mstate -> option R)
      (st : mstate) :
  rmatch icase total (word w) k st =
  if starts_with icase w (rest st)
  then k (MState (drop (String.length w) (rest st)) (grp st))
  else None.
Proof.
  revert st. induction w as [|p w IH]; intros [s g]; simpl.
  - reflexivity.
  - destruct s as [|c s]; simpl; [reflexivity|].
    destruct (lit_ok icase p c); simpl; [|reflexivity].
    now rewrite IH.
Qed.

(** With nothing after it that can fail, [cl+] takes the whole run. *)
Lemma plus_loop_greedy_all (cl : cclass) (g : option string) (s : string) :
  plus_loop true cl (fun st => Some st) g s =
  match s with
  | "" => None
  | String c s' =>
      if class_ok cl c then Some (MState (skip_class cl s') g) else None
  end.
Proof.
  induction s as [|c s IH]; [reflexivity|].
  cbn [plus_loop]. destruct (class_ok cl c); [|reflexivity].
  rewrite IH. destruct s as [|d s]; [reflexivity|].
  cbn [skip_class]. now destruct (class_ok cl d).
Qed.

(** A successful loop has run the continuation after a non-empty run of
    characters of the class. *)
Lemma plus_loop_sound {R : Type} (greedy : bool) (cl : cclass)
      (k : mstate -> option R) (g : option string) (s : string) (x : R) :
  plus_loop greedy cl k g s = Some x ->
  exists c p s', s = String c p ++ s' /\ class_ok cl c = true
                 /\ k (MState s' g) = Some x.
Proof.
  induction s as [|c s IH]; [discriminate|].
  cbn [plus_loop]. destruct (class_ok cl c) eqn:E; [|discriminate].
  assert (deeper :
    plus_loop greedy cl k g s = Some x ->
    exists c0 p s', String c s = String c0 p ++ s' /\ class_ok cl c0 = true
                    /\ k (MState s' g) = Some x).
  { intros H. destruct (IH H) as (c1 & p & s' & -> & _ & K).
    now exists c, (String c1 p), s'. }
  assert (here :
    k (MState s g) = Some x ->
    exists c0 p s', String c s = String c0 p ++ s' /\ class_ok cl c0 = true
                    /\ k (MState s' g) = Some x).
  { intros H. now exists c, "", s. }
  destruct greedy.
  - destruct (plus_loop true cl k g s) eqn:L.
    + intros [= ->]. now apply deeper.
    + exact here.
  - destruct (k (MState s g)) eqn:K.
    + intros [= ->]. now apply here.
    + exact deeper.
Qed.

(** A successful match has run the continuation on a suffix. *)
Lemma rmatch_sound {R : Type} (r : regex) :
  forall (k : mstate -> option R) (st : mstate) (x : R),
    rmatch icase total r k st = Some x ->
    exists st', k st' = Some x /\ suffix_of (rest st') (rest st).
Proof.
  induction r as [|p| | |r1 IH1 r2 IH2|r1 IH1 r2 IH2|greedy cl|r IH];
    intros k st x; cbn [rmatch].
  - intros H. exists st. split; [exact H | apply suffix_of_refl].
  - destruct (rest st) as [|c s] eqn:E; [discriminate|].
    destruct (lit_ok icase p c); [|discriminate].
    intros H. exists (MState s (grp st)). split; [exact H|].
    apply suffix_of_tail.
  - destruct (String.length (rest st) =? total)%nat; [|discriminate].
    intros H. exists st. split; [exact H | apply suffix_of_refl].
  - intros H. exists st. split; [|apply suffix_of_refl].
    destruct (rest st) as [|c [|d s]]; [exact H | | discriminate].
    now destruct (Ascii.eqb c newline).
  - intros H. destruct (IH1 _ _ _ H) as (st1 & H1 & S1).
    destruct (IH2 _ _ _ H1) as (st2 & H2 & S2).
    exists st2. split; [exact H2|]. eapply suffix_of_trans; eassumption.
  - destruct (rmatch icase total r1 k st) eqn:H1.
    + intros [= ->]. now apply IH1.
    + apply IH2.
  - intros H. apply plus_loop_sound in H.
    destruct H as (c & p & s' & E & _ & K).
    exists (MState s' (grp st)). split; [exact K|]. now exists (String c p).
  - intros H. destruct (IH _ _ _ H) as (st1 & H1 & S1).
    eexists. split; [exact H1 | exact S1].
Qed.

(** The leftmost match is a match at some suffix of the subject. *)
Lemma search_from_sound (r : regex) (s : string) (m : mstate) :
  search_from icase total r s = Some m ->
  exists u, suffix_of u s /\ match_here icase total r u = Some m.
Proof.
  induction s as [|c s IH]; cbn [search_from].
  - destruct (match_here icase total r "") eqn:H; [|discriminate].
    intros [= ->]. exists "". split; [apply suffix_of_refl | exact H].
  - destruct (match_here icase total r (String c s)) eqn:H.
    + intros [= ->]. exists (String c s). split; [apply suffix_of_refl|exact H].
    + intros H'. destruct (IH H') as (u & S & M). exists u. split; [|exact M].
      eapply suffix_of_trans; [exact S | apply suffix_of_tail].
Qed.

(** A match somewhere makes the search succeed. *)
Lemma search_from_complete (r : regex) (pre s : string) (m : mstate) :
  match_here icase total r s = Some m ->
  exists m', search_from icase total r (pre ++ s) = Some m'.
Proof.
  intros H. induction pre as [|c pre IH]; simpl.
  - destruct s; cbn [search_from]; rewrite H; now exists m.
  - destruct (match_here icase total r (String c (pre ++ s))) as [m0|];
      [now exists m0 | exact IH].
Qed.

End MatcherFacts.

(** ** Facts on [re.sub] *)

Section SubFacts.

Variable icase : bool.
Variable total : nat.
Variable r : regex.
Variable repl : string.

Lemma sub_go_skip (k : nat) (s : string) :
  k <= String.length s ->
  sub_go icase total r repl k s = sub_go icase total r repl 0 (drop k s).
Proof.
  revert k. induction s as [|c s IH]; intros [|k] L; try reflexivity.
  - simpl in L. lia.
  - cbn [sub_go drop]. apply IH. simpl in L. lia.
Qed.

Lemma suffix_of_shorter (u s : string) :
  suffix_of u s -> u <> s -> String.length u < String.length s.
Proof.
  intros [p ->] N. rewrite length_append.
  destruct p as [|c p]; [now elim N | simpl; lia].
Qed.

(** After a non-empty match the substitution goes on behind it. *)
Lemma sub_go_match (s : string) (st : mstate) :
  match_here icase total r s = Some st ->
  suffix_of (rest st) s -> rest st <> s ->
  sub_go icase total r repl 0 s
  = repl ++ sub_go icase total r repl 0 (rest st).
Proof.
  intros M Sf N. pose proof (suffix_of_shorter _ _ Sf N) as L.
  destruct s as [|c s]; [simpl in L; lia|].
  cbn [sub_go]. rewrite M.
  destruct (String.length (String c s) - String.length (rest st)) as [|k] eqn:E;
    [lia|].
  f_equal. rewrite sub_go_skip by (cbn [String.length] in E; lia).
  f_equal. change (drop k s) with (drop (S k) (String c s)).
  rewrite <- E. now apply drop_to_suffix.
Qed.

Lemma sub_go_nomatch (c : ascii) (s : string) :
  match_here icase total r (String c s) = None ->
  sub_go icase total r repl 0 (String c s)
  = String c (sub_go icase total r repl 0 s).
Proof. intros M. cbn [sub_go]. now rewrite M. Qed.

End SubFacts.

(** A pattern that starts with [^] leaves what is behind the start alone. *)
Lemma sub_go_bol_copy (icase : bool) (total : nat) (r : regex)
      (repl u : string) :
  String.length u < total ->
  sub_go icase total (Cat Bol r) repl 0 u = u.
Proof.
  induction u as [|c u IH]; intros L.
  - cbn. destruct total; [lia | reflexivity].
  - assert (M : match_here icase total (Cat Bol r) (String c u) = None).
    { unfold match_here. cbn [rmatch rest].
      destruct (Nat.eqb_spec (String.length (String c u)) total); [lia|].
      reflexivity. }
    rewrite sub_go_nomatch by exact M. f_equal. apply IH. simpl in L. lia.
Qed.

(** *** Whitespace collapsing *)

Lemma collapse_go_nil (total : nat) :
  sub_go false total whitespace_run " " 0 "" = "".
Proof. reflexivity. Qed.

Lemma collapse_go_cons (total : nat) (c : ascii) (s : string) :
  sub_go false total whitespace_run " " 0 (String c s)
  = if isspace c
    then String " " (sub_go false total whitespace_run " " 0 (lstrip s))
    else String c (sub_go false total whitespace_run " " 0 s).
Proof.
  assert (M : match_here false total whitespace_run (String c s)
              = if isspace c then Some (MState (lstrip s) None) else None).
  { unfold match_here, whitespace_run. cbn [rmatch rest grp].
    rewrite plus_loop_greedy_all. cbn [class_ok]. now rewrite lstrip_skip. }
  destruct (isspace c).
  - rewrite (sub_go_match _ _ _ _ _ _ M); [reflexivity | |].
    + eapply suffix_of_trans; [apply lstrip_suffix | apply suffix_of_tail].
    + cbn [rest]. intros E.
      pose proof (suffix_of_length _ _ (lstrip_suffix s)) as L.
      rewrite E in L. simpl in L. lia.
  - now apply sub_go_nomatch.
Qed.

Lemma rstrip_cons_inv (c : ascii) (s : string) :
  rstrip (String c s) = String c s ->
  rstrip s = s /\ (s = "" -> isspace c = false).
Proof.
  cbn [rstrip]. destruct (rstrip s) as [|d r] eqn:E.
  - destruct (isspace c); [discriminate|]. intros [= <-]. now split.
  - intros [= <-]. split; [reflexivity | discriminate].
Qed.

Lemma lstrip_nil_rstrip (s : string) : lstrip s = "" -> rstrip s = "".
Proof.
  induction s as [|c s IH]; [reflexivity|]. cbn [lstrip rstrip].
  destruct (isspace c); [|discriminate]. intros H. now rewrite (IH H).
Qed.

Lemma rstrip_lstrip_fix (s : string) :
  rstrip s = s -> rstrip (lstrip s) = lstrip s.
Proof.
  induction s as [|c s IH]; [reflexivity|]. intros H.
  cbn [lstrip]. destruct (isspace c); [|exact H].
  apply IH. now apply rstrip_cons_inv in H.
Qed.

Lemma rstrip_idem (s : string) : rstrip (rstrip s) = rstrip s.
Proof.
  induction s as [|c s IH]; [reflexivity|]. cbn [rstrip].
  destruct (rstrip s) as [|d r] eqn:E.
  - destruct (isspace c) eqn:F; [reflexivity|]. cbn [rstrip]. now rewrite F.
  - change (rstrip (String c (String d r))) with
      (match rstrip (String d r) with
       | "" => if isspace c then "" else String c ""
       | r0 => String c r0
       end).
    now rewrite IH.
Qed.

(** What [collapse] returns for a text without trailing whitespace. *)
Lemma collapse_go_spaced (total n : nat) :
  forall s, String.length s <= n -> rstrip s = s ->
            spaced (sub_go false total whitespace_run " " 0 s) = true.
Proof.
  induction n as [|n IH]; intros s L T.
  - destruct s; [reflexivity | simpl in L; lia].
  - destruct s as [|c s]; [reflexivity|]. rewrite collapse_go_cons.
    destruct (rstrip_cons_inv _ _ T) as [T' NE]. simpl in L.
    destruct (isspace c) eqn:E.
    + pose proof (suffix_of_length _ _ (lstrip_suffix s)) as L'.
      assert (S' : spaced (sub_go false total whitespace_run " " 0 (lstrip s))
                   = true)
        by (apply IH; [lia | now apply rstrip_lstrip_fix]).
      pose proof (lstrip_no_leading_ws s) as NL.
      destruct (lstrip s) as [|d u] eqn:F.
      * apply lstrip_nil_rstrip in F. rewrite T' in F.
        specialize (NE F). congruence.
      * rewrite collapse_go_cons in S' |- *. cbn [no_leading_ws] in NL.
        apply negb_true_iff in NL. rewrite NL in S' |- *.
        cbn [spaced] in S' |- *. rewrite NL in S' |- *. exact S'.
    + cbn [spaced]. rewrite E. apply IH; [lia | exact T'].
Qed.

Lemma collapse_spaced (s : string) :
  rstrip s = s -> spaced (collapse s) = true.
Proof. intros T. now apply (collapse_go_spaced _ (String.length s)). Qed.

Lemma collapse_no_leading_ws (s : string) :
  no_leading_ws s = true -> no_leading_ws (collapse s) = true.
Proof.
  unfold collapse, Re.sub. destruct s as [|c s]; [reflexivity|].
  cbn [no_leading_ws]. intros H. rewrite collapse_go_cons.
  apply negb_true_iff in H. rewrite H. cbn [no_leading_ws]. now rewrite H.
Qed.

Lemma collapse_nonempty (s : string) : s <> "" -> collapse s <> "".
Proof.
  unfold collapse, Re.sub. destruct s as [|c s]; [congruence|]. intros _.
  rewrite collapse_go_cons. now destruct (isspace c).
Qed.

(** A trimmed text collapses to a tidy one. *)
Lemma collapse_strip_tidy (p : string) : tidy (collapse (strip p)) = true.
Proof.
  unfold tidy. apply andb_true_intro. split.
  - apply collapse_no_leading_ws. unfold strip.
    pose proof (lstrip_no_leading_ws p) as H.
    destruct (lstrip p) as [|c u]; [reflexivity|].
    cbn [no_leading_ws] in H. cbn [rstrip].
    destruct (rstrip u); [|exact H].
    apply negb_true_iff in H. rewrite H. cbn. now rewrite H.
  - apply collapse_spaced. apply rstrip_idem.
Qed.

(** A spaced text is left as it is. *)
Lemma collapse_go_id (total : nat) (s : string) :
  spaced s = true -> sub_go false total whitespace_run " " 0 s = s.
Proof.
  induction s as [|c s IH]; [reflexivity|]. intros H.
  rewrite collapse_go_cons. cbn [spaced] in H.
  apply andb_prop in H. destruct H as [H S'].
  destruct (isspace c).
  - apply andb_prop in H. destruct H as [C N].
    apply Ascii.eqb_eq in C. subst c.
    rewrite lstrip_id by (destruct s; [discriminate | exact N]).
    now rewrite IH.
  - now rewrite IH.
Qed.

(** *** Filler removal *)

Lemma match_here_filler (w t : string) :
  match_here true (String.length t) (filler_pattern w) t
  = if begins_with_filler w t
    then Some (MState (lstrip (drop (String.length w) t)) None)
    else None.
Proof.
  unfold match_here, filler_pattern, begins_with_filler.
  cbn [rmatch rest grp]. rewrite Nat.eqb_refl, rmatch_word. cbn [rest grp].
  destruct (starts_with true w t); [|reflexivity]. cbn [andb rmatch rest grp].
  rewrite plus_loop_greedy_all.
  destruct (drop (String.length w) t) as [|c u]; [reflexivity|].
  cbn [class_ok lstrip]. destruct (isspace c); [|reflexivity].
  now rewrite lstrip_skip.
Qed.

(** [re.sub(f'^{word}\\s+', '', cleaned, flags=re.IGNORECASE)] *)
Lemma sub_filler (w t : string) :
  Re.sub true (filler_pattern w) "" t = strip_filler w t.
Proof.
  unfold Re.sub, strip_filler. pose proof (match_here_filler w t) as M.
  destruct (begins_with_filler w t) eqn:B.
  - assert (Sf : suffix_of (lstrip (drop (String.length w) t)) t)
      by (eapply suffix_of_trans; [apply lstrip_suffix | apply drop_suffix]).
    assert (L : String.length (lstrip (drop (String.length w) t))
                < String.length t).
    { unfold begins_with_filler in B. apply andb_prop in B.
      destruct B as [_ B].
      pose proof (suffix_of_length _ _ (drop_suffix (String.length w) t)) as L1.
      destruct (drop (String.length w) t) as [|c u]; [discriminate|].
      cbn [lstrip]. rewrite B.
      pose proof (suffix_of_length _ _ (lstrip_suffix u)) as L2.
      simpl in L1. lia. }
    rewrite (sub_go_match _ _ _ _ _ _ M); cbn [rest].
    + apply sub_go_bol_copy. exact L.
    + exact Sf.
    + intros E. rewrite E in L. lia.
  - destruct t as [|c t]; [cbn [sub_go]; now rewrite M|].
    rewrite sub_go_nomatch by exact M. f_equal.
    apply sub_go_bol_copy. simpl. lia.
Qed.

(** [clean_prompt] without regular expressions for the fillers. *)
Lemma clean_prompt_unfold (prompt : string) :
  clean_prompt prompt
  = fold_left (fun t w => strip_filler w t) filler_words
      (collapse (strip prompt)).
Proof.
  unfold clean_prompt, collapse. generalize filler_words as ws.
  generalize (Re.sub false whitespace_run " " (strip prompt)) as t.
  intros t ws. revert t. induction ws as [|w ws IH]; intros t; simpl;
    [reflexivity|]. now rewrite sub_filler, IH.
Qed.

Lemma tidy_suffix (u s : string) :
  tidy s = true -> suffix_of (String " " u) s ->
  tidy u = true /\ u <> "".
Proof.
  unfold tidy. intros T Sf. apply andb_prop in T. destruct T as [_ T].
  pose proof (spaced_suffix _ _ Sf T) as H. cbn [spaced] in H.
  change (isspace " ") with true in H. cbn [Ascii.eqb] in H.
  apply andb_prop in H. destruct H as [H1 H2].
  destruct u as [|d u]; [discriminate|]. split; [|discriminate].
  cbn [no_leading_ws]. now rewrite H2, andb_true_r.
Qed.

Lemma spaced_ws_is_space (c : ascii) (u : string) :
  spaced (String c u) = true -> isspace c = true -> c = " "%char.
Proof.
  cbn [spaced]. intros H E. rewrite E in H.
  apply andb_prop in H. destruct H as [H _].
  apply andb_prop in H. destruct H as [H _]. now apply Ascii.eqb_eq.
Qed.

(** Removing a filler keeps a tidy, non-empty text tidy and non-empty. *)
Lemma strip_filler_tidy (w t : string) :
  tidy t = true -> t <> "" ->
  tidy (strip_filler w t) = true /\ strip_filler w t <> "".
Proof.
  intros T NE. unfold strip_filler.
  destruct (begins_with_filler w t) eqn:B; [|now split].
  unfold begins_with_filler in B. apply andb_prop in B. destruct B as [_ B].
  pose proof (drop_suffix (String.length w) t) as Sf.
  destruct (drop (String.length w) t) as [|c u]; [discriminate|].
  assert (c = " "%char) as ->.
  { apply (spaced_ws_is_space c u); [|exact B].
    unfold tidy in T. apply andb_prop in T. destruct T as [_ T].
    exact (spaced_suffix _ _ Sf T). }
  destruct (tidy_suffix u t T Sf) as [Tu NEu].
  cbn [lstrip]. change (isspace " ") with true. cbn iota.
  rewrite lstrip_id; [now split|].
  unfold tidy in Tu. now apply andb_prop in Tu.
Qed.

(** The cleaned text of a prompt that is not blank is tidy and not empty. *)
Lemma clean_prompt_tidy (prompt : string) :
  strip prompt <> "" ->
  tidy (clean_prompt prompt) = true /\ clean_prompt prompt <> "".
Proof.
  intros NE. rewrite clean_prompt_unfold.
  assert (H : tidy (collapse (strip prompt)) = true
              /\ collapse (strip prompt) <> "")
    by (split; [apply collapse_strip_tidy | now apply collapse_nonempty]).
  revert H. generalize (collapse (strip prompt)) as t.
  generalize filler_words as ws.
  induction ws as [|w ws IH]; intros t [T N]; [now split|].
  cbn [fold_left]. apply IH. now apply strip_filler_tidy.
Qed.

(** ** Facts on the question patterns *)

Lemma lit_ok_space (c : ascii) : lit_ok true " " c = true -> c = " "%char.
Proof.
  unfold lit_ok. intros H. apply Ascii.eqb_eq in H. revert H.
  destruct c as [[] [] [] [] [] [] [] []]; vm_compute; congruence.
Qed.

Lemma starts_with_last_space (w u : string) :
  starts_with true (w ++ " ") u = true ->
  suffix_of (String " " (drop (String.length (w ++ " ")) u)) u.
Proof.
  revert u. induction w as [|p w IH]; intros [|c u]; cbn [append starts_with];
    try discriminate; intros H; apply andb_prop in H; destruct H as [H1 H2].
  - apply lit_ok_space in H1. subst c. cbn [String.length append drop].
    apply suffix_of_refl.
  - cbn [String.length drop].
    eapply suffix_of_trans; [exact (IH _ H2) | apply suffix_of_tail].
Qed.

(** Every way through the pattern reads a space and then
    [(.+?)(?:\?|$)]. *)
Definition leads_to_tail (p : regex) : Prop :=
  forall (total : nat) (k : mstate -> option mstate) (st : mstate)
         (x : mstate),
    rmatch true total p k st = Some x ->
    exists s3 g,
      suffix_of (String " " s3) (rest st)
      /\ rmatch true total question_tail k (MState s3 g) = Some x.

Lemma leads_to_tail_alt (r1 r2 : regex) :
  leads_to_tail (Cat r1 (Cat r2 (Cat (Lit " ") question_tail))).
Proof.
  intros total k st x H. cbn [rmatch] in H.
  apply rmatch_sound in H. destruct H as (st1 & H & S1).
  apply rmatch_sound in H. destruct H as (st2 & H & S2).
  destruct (rest st2) as [|c s3] eqn:E; [discriminate|].
  destruct (lit_ok true " " c) eqn:L; [|discriminate].
  apply lit_ok_space in L. subst c.
  exists s3, (grp st2). split; [|exact H].
  eapply suffix_of_trans; eassumption.
Qed.

Lemma leads_to_tail_word (w : string) :
  leads_to_tail (Cat (word (w ++ " ")) question_tail).
Proof.
  intros total k st x H. cbn [rmatch] in H. rewrite rmatch_word in H.
  destruct (starts_with true (w ++ " ") (rest st)) eqn:W; [|discriminate].
  eexists _, _. split; [|exact H]. now apply starts_with_last_space.
Qed.

Lemma question_patterns_lead_to_tail :
  Forall leads_to_tail question_patterns.
Proof.
  unfold question_patterns.
  repeat (apply Forall_cons; [first
    [ apply leads_to_tail_alt
    | apply (leads_to_tail_word "explain")
    | apply (leads_to_tail_word "describe")
    | apply (leads_to_tail_word "compare")
    | apply (leads_to_tail_word "analyze") ] |]).
  apply Forall_nil.
Qed.

Lemma rmatch_end_grp (total : nat) (st m : mstate) :
  rmatch true total (Alt (Lit "?") Eol) (fun st => Some st) st = Some m ->
  grp m = grp st.
Proof.
  destruct st as [s g]. cbn [rmatch rest grp].
  destruct s as [|c [|d s]];
    repeat match goal with
           | |- context [if ?b then _ else _] => destruct b
           end;
    intros H; inversion H; reflexivity.
Qed.

Lemma question_tail_unfold {R : Type} (total : nat) (k : mstate -> option R)
      (s : string) (g : option string) :
  rmatch true total question_tail k (MState s g)
  = plus_loop false Any
      (fun st' =>
         rmatch true total (Alt (Lit "?") Eol) k
           (MState (rest st')
              (Some (take (String.length s - String.length (rest st')) s))))
      g s.
Proof. reflexivity. Qed.

(** Group 1 of [(.+?)(?:\?|$)] starts with the first character read. *)
Lemma question_tail_group (total : nat) (s : string) (g : option string)
      (m : mstate) :
  rmatch true total question_tail (fun st => Some st) (MState s g) = Some m ->
  exists d s4 g', s = String d s4 /\ grp m = Some (String d g').
Proof.
  rewrite question_tail_unfold. intros H.
  apply plus_loop_sound in H. destruct H as (c & p & s' & -> & _ & H).
  cbn [rest] in H. apply rmatch_end_grp in H. cbn [grp] in H.
  rewrite take_to_suffix in H. now exists c, (p ++ s'), p.
Qed.

(** In a spaced text a question pattern captures a group whose first
    character is not whitespace. *)
Lemma question_search_group (p : regex) (t : string) (m : mstate) :
  In p question_patterns -> spaced t = true ->
  Re.search true p t = Some m ->
  exists d g', group1 m = String d g' /\ isspace d = false.
Proof.
  intros I Sp H. unfold Re.search in H.
  apply search_from_sound in H. destruct H as (u & Su & H).
  pose proof question_patterns_lead_to_tail as F.
  rewrite Forall_forall in F. apply (F p I) in H.
  destruct H as (s3 & g & S3 & H). cbn [rest] in S3.
  apply question_tail_group in H. destruct H as (d & s4 & g' & -> & G).
  exists d, g'. split; [unfold group1; now rewrite G|].
  apply (spaced_after_space " " d s4); [reflexivity|].
  apply (spaced_suffix _ t); [|exact Sp].
  eapply suffix_of_trans; eassumption.
Qed.

Lemma extract_problem_nonempty (t : string) :
  tidy t = true -> t <> "" -> extract_problem t <> "".
Proof.
  intros T NE. unfold tidy in T. apply andb_prop in T. destruct T as [_ Sp].
  unfold extract_problem.
  assert (H : forall p, In p question_patterns -> In p question_patterns)
    by trivial.
  revert H. generalize question_patterns at 1 3 as ps.
  induction ps as [|p ps IH]; intros H; cbn [first_question]; [exact NE|].
  destruct (Re.search true p t) as [m|] eqn:M.
  - destruct (question_search_group p t m (H p (or_introl eq_refl)) Sp M)
      as (d & g' & -> & D).
    now apply strip_cons_ne.
  - apply IH. intros q Q. apply H. now right.
Qed.

(** ** Facts on the tables *)

Lemma dict_get_in {V : Type} (d : list (string * V)) (k : string) (v : V) :
  dict_get d k = Some v -> In (k, v) d.
Proof.
  induction d as [|[k' v'] d IH]; [discriminate|]. cbn [dict_get].
  destruct (String.eqb_spec k' k) as [->|_].
  - intros [= ->]. now left.
  - intros H. right. now apply IH.
Qed.

Lemma dict_get_none {V : Type} (d : list (string * V)) (k : string) :
  dict_get d k = None -> ~ In k (map fst d).
Proof.
  induction d as [|[k' v'] d IH]; [intros _ []|]. cbn [dict_get map fst].
  destruct (String.eqb_spec k' k) as [->|N]; [discriminate|].
  intros H [E|I]; [now apply N | now apply IH].
Qed.

Lemma dict_get_map {V W : Type} (f : V -> W) (d : list (string * V))
      (k : string) :
  dict_get (map (fun '(c, v) => (c, f v)) d) k = option_map f (dict_get d k).
Proof.
  induction d as [|[k' v'] d IH]; [reflexivity|]. cbn [map dict_get].
  now destruct (String.eqb k' k).
Qed.

Lemma first_format_in (items : list (string * string)) (t f : string) :
  first_format items t = Some f -> In f (map snd items).
Proof.
  induction items as [|[k v] items IH]; [discriminate|]. cbn [first_format].
  destruct (contains k t).
  - intros [= ->]. now left.
  - intros H. right. now apply IH.
Qed.

(** *** [max] *)

Lemma max_from_spec {A : Type} (key : A -> nat) (l : list A) :
  forall b,
  exists before after,
    (b :: l = before ++ max_from key b l :: after)%list
    /\ Forall (fun x => key x < key (max_from key b l)) before
    /\ Forall (fun x => key x <= key (max_from key b l)) after.
Proof.
  induction l as [|x l IH]; intros b.
  - exists [], []. repeat split; constructor.
  - cbn [max_from]. destruct (Nat.ltb_spec (key b) (key x)) as [L|L].
    + destruct (IH x) as (before & after & E & B & A').
      exists (b :: before), after. rewrite E. repeat split; [|exact A'].
      constructor; [|exact B].
      assert (key x <= key (max_from key x l)); [|lia].
      destruct before as [|y before]; cbn in E.
      * injection E as E _. rewrite <- E. lia.
      * injection E as E _. subst y. inversion B; subst. lia.
    + destruct (IH b) as (before & after & E & B & A').
      destruct before as [|y before]; cbn in E.
      * injection E as E1 E2. subst after. exists [], (x :: l).
        split; [cbn; now rewrite <- E1|]. split; [constructor|].
        constructor; [rewrite <- E1; lia | exact A'].
      * injection E as E1 E2. subst y. exists (b :: x :: before), after.
        split; [cbn; do 2 f_equal; exact E2|]. split; [|exact A'].
        inversion B; subst. constructor; [assumption|].
        constructor; [lia | assumption].
Qed.

Lemma keyword_score_count (keywords : list string) (t : string) :
  keyword_score keywords t = keyword_count keywords t.
Proof.
  unfold keyword_score, keyword_count.
  generalize (filter (fun keyword => contains keyword t) keywords) as l.
  induction l as [|k l IH]; [reflexivity|]. simpl. f_equal. exact IH.
Qed.

Lemma score_of_category (text c : string) :
  score_of (context_scores (lower text)) c = category_score c text.
Proof.
  unfold score_of, category_score, context_scores.
  rewrite (dict_get_map (fun kws => keyword_score kws (lower text))).
  destruct (dict_get context_keywords c); [apply keyword_score_count|].
  reflexivity.
Qed.

Lemma max_from_ext {A : Type} (key key' : A -> nat) (l : list A) :
  (forall x, key x = key' x) ->
  forall b, max_from key b l = max_from key' b l.
Proof.
  intros E. induction l as [|x l IH]; intros b; [reflexivity|].
  cbn [max_from]. now rewrite !E, IH.
Qed.

Lemma detect_context_unfold (text : string) :
  detect_context text
  = let best :=
      max_from (fun c => category_score c text) "technical"
        ["educational"; "creative"; "analytical"; "business"] in
    if (0 <? category_score best text)%nat then best else "general".
Proof.
  unfold detect_context.
  change (map fst (context_scores (lower text))) with categories.
  cbn [categories]. cbv zeta.
  rewrite (max_from_ext _ (fun c => category_score c text))
    by (intros c; apply score_of_category).
  now rewrite score_of_category.
Qed.

(** ** The context detector *)

Lemma detect_context_cases (text : string) :
  let score := fun c => category_score c text in
  (detect_context text = "general"
   /\ Forall (fun c => score c = 0) categories)
  \/ (exists before after,
         (categories = before ++ detect_context text :: after)%list
         /\ 0 < score (detect_context text)
         /\ Forall (fun c => score c < score (detect_context text)) before
         /\ Forall (fun c => score c <= score (detect_context text)) after).
Proof.
  intros score. rewrite detect_context_unfold. cbv zeta.
  destruct (max_from_spec score
              ["educational"; "creative"; "analytical"; "business"]
              "technical") as (before & after & E & B & A').
  fold score.
  set (best := max_from score "technical"
                 ["educational"; "creative"; "analytical"; "business"]) in *.
  change (0 <? category_score best text)%nat with (0 <? score best)%nat.
  destruct (Nat.ltb_spec 0 (score best)) as [L|L].
  - right. exists before, after.
    split; [exact E|]. split; [exact L|]. split; assumption.
  - left. split; [reflexivity|].
    change categories with
      ["technical"; "educational"; "creative"; "analytical"; "business"].
    rewrite E. apply Forall_app. split.
    + eapply Forall_impl; [|exact B]. intros c H. cbv beta in *. lia.
    + constructor; [lia|]. eapply Forall_impl; [|exact A'].
      intros c H. cbv beta in *. lia.
Qed.

Lemma detect_context_nonempty (text : string) : detect_context text <> "".
Proof.
  destruct (detect_context_cases text) as [[E _]|H].
  - rewrite E. discriminate.
  - destruct H as (before & after & E & _).
    assert (I : In (detect_context text) categories)
      by (rewrite E; apply in_or_app; right; now left).
    intros N. rewrite N in I. cbn in I.
    repeat (destruct I as [I|I]; [discriminate|]). exact I.
Qed.

Lemma determine_solution_approach_nonempty (prompt c : string) :
  determine_solution_approach prompt c <> "".
Proof.
  unfold determine_solution_approach.
  destruct (dict_get context_approaches c) as [a|] eqn:E; [|discriminate].
  apply dict_get_in in E. cbn in E. intros N. subst a.
  repeat (destruct E as [E|E]; [discriminate|]). exact E.
Qed.

Lemma suggest_output_format_nonempty (prompt c : string) :
  suggest_output_format prompt c <> "".
Proof.
  unfold suggest_output_format. cbv zeta.
  destruct (first_format format_keywords (lower prompt)) as [f|] eqn:F.
  - apply first_format_in in F. cbn in F. intros N. subst f.
    repeat (destruct F as [F|F]; [discriminate|]). exact F.
  - destruct (dict_get context_formats c) as [f|] eqn:E; [|discriminate].
    apply dict_get_in in E. cbn in E. intros N. subst f.
    repeat (destruct E as [E|E]; [discriminate|]). exact E.
Qed.

(** ** The analyzer on prompts that are not blank *)

(** C8.  For every prompt that is not empty after trimming, the four fields
    of [analyze_prompt] are non-empty strings. *)
Theorem analyze_prompt_fields_nonempty (prompt : string) :
  strip prompt <> "" ->
  context (analyze_prompt prompt) <> ""
  /\ problem (analyze_prompt prompt) <> ""
  /\ expected_solution (analyze_prompt prompt) <> ""
  /\ output_format (analyze_prompt prompt) <> "".
Proof.
  intros NE. destruct (clean_prompt_tidy prompt NE) as [T N].
  unfold analyze_prompt. cbn [context problem expected_solution output_format].
  repeat split.
  - apply detect_context_nonempty.
  - now apply extract_problem_nonempty.
  - apply determine_solution_approach_nonempty.
  - apply suggest_output_format_nonempty.
Qed.

Lemma analyze_prompt_fields_nonempty_witness :
  strip "  Could you   tell me why does  it rain?  " <> ""
  /\ context (analyze_prompt "  Could you   tell me why does  it rain?  ")
     <> ""
  /\ problem (analyze_prompt "  Could you   tell me why does  it rain?  ")
     <> ""
  /\ expected_solution
       (analyze_prompt "  Could you   tell me why does  it rain?  ") <> ""
  /\ output_format
       (analyze_prompt "  Could you   tell me why does  it rain?  ") <> "".
Proof.
  split; [vm_compute; discriminate|].
  apply analyze_prompt_fields_nonempty. vm_compute. discriminate.
Defined.

Lemma analyze_prompt_fields_nonempty_example :
  analyze_prompt "Explain blockchain technology"
  = Fields "educational" "blockchain technology"
      "Give clear, step-by-step explanation suitable for learning"
      "step-by-step guide".
Proof. vm_compute. reflexivity. Qed.

(** ** "What is machine learning?" *)

(** C2, as stated: context "general", problem "machine learning" and output
    format "detailed explanation".  The analyzer does not return that. *)
Lemma analyze_machine_learning_not_general :
  ~ (context (analyze_prompt "What is machine learning?") = "general"
     /\ problem (analyze_prompt "What is machine learning?")
        = "machine learning"
     /\ output_format (analyze_prompt "What is machine learning?")
        = "detailed explanation").
Proof. vm_compute. intros [H _]. discriminate H. Qed.

(** C2, amended.  The keyword "learn" of the educational category is a
    substring of "learning", and no other category has a keyword in the
    text: the context is "educational", the problem is "machine learning",
    and the output format is the educational default,
    "step-by-step guide". *)
Theorem analyze_machine_learning :
  analyze_prompt "What is machine learning?"
  = Fields "educational" "machine learning"
      "Give clear, step-by-step explanation suitable for learning"
      "step-by-step guide"
  /\ contains "learn" (lower "What is machine learning?") = true
  /\ map (fun c => category_score c "What is machine learning?") categories
     = [0; 1; 0; 0; 0]
  /\ first_format format_keywords (lower "What is machine learning?") = None.
Proof. vm_compute. repeat split. Qed.

(** ** Facts on substrings *)

Lemma prefix_spec (a s : string) :
  prefix a s = true <-> exists b, s = a ++ b.
Proof.
  revert s. induction a as [|x a IH]; intros s.
  - split; [intros _; now exists s | now destruct s].
  - destruct s as [|y s]; cbn [prefix].
    + split; [discriminate | intros [b E]; discriminate E].
    + destruct (ascii_dec x y) as [->|N].
      * rewrite IH. split; intros [b E]; exists b.
        -- cbn. now rewrite E.
        -- cbn in E. now injection E.
      * split; [discriminate | intros [b E]]. cbn in E. injection E as E _.
        now elim N.
Qed.

Lemma contains_occurs (sub s : string) :
  contains sub s = true <-> occurs sub s.
Proof.
  induction s as [|c s IH]; cbn [contains].
  - rewrite orb_false_r, prefix_spec. split.
    + intros [b E]. now exists "", b.
    + intros (pre & post & E). destruct pre; [now exists post|discriminate].
  - rewrite orb_true_iff, prefix_spec, IH. split.
    + intros [[b E]|(pre & post & E)].
      * now exists "", b.
      * exists (String c pre), post. cbn. now rewrite E.
    + intros (pre & post & E). destruct pre as [|d pre].
      * left. now exists post.
      * right. exists pre, post. cbn in E. now injection E.
Qed.

Lemma lower_app (a b : string) : lower (a ++ b) = lower a ++ lower b.
Proof. induction a as [|x a IH]; cbn; [reflexivity | now rewrite IH]. Qed.

Lemma lower_split (s a b : string) :
  lower s = a ++ b -> exists a' b', s = a' ++ b' /\ lower a' = a /\ lower b' = b.
Proof.
  revert s. induction a as [|x a IH]; intros s E.
  - now exists "", s.
  - destruct s as [|c s]; [discriminate|]. cbn in E. injection E as E1 E2.
    destruct (IH _ E2) as (a' & b' & -> & <- & <-).
    exists (String c a'), b'. cbn. now rewrite E1.
Qed.

(** [keyword in prompt.lower()] is occurrence with the case ignored. *)
Lemma contains_lower_ci (keyword text : string) :
  contains keyword (lower text) = true <-> occurs_ci keyword text.
Proof.
  rewrite contains_occurs. split.
  - intros (pre & post & E). apply lower_split in E.
    destruct E as (pre' & r & -> & _ & E). apply lower_split in E.
    destruct E as (mid & post' & -> & E & _). now exists pre', mid, post'.
  - intros (pre & mid & post & -> & <-).
    exists (lower pre), (lower post). now rewrite !lower_app.
Qed.

Lemma contains_lower_not_ci (keyword text : string) :
  contains keyword (lower text) = false <-> ~ occurs_ci keyword text.
Proof.
  rewrite <- contains_lower_ci. now destruct (contains keyword (lower text)).
Qed.

Lemma first_format_spec (text : string) (items : list (string * string)) :
  match first_format items (lower text) with
  | Some f =>
      exists before keyword after,
        (items = before ++ (keyword, f) :: after)%list
        /\ occurs_ci keyword text
        /\ Forall (fun '(k, _) => ~ occurs_ci k text) before
  | None => Forall (fun '(k, _) => ~ occurs_ci k text) items
  end.
Proof.
  induction items as [|[k v] items IH]; cbn [first_format]; [constructor|].
  destruct (contains k (lower text)) eqn:C.
  - exists [], k, items. repeat split; [|constructor].
    now apply contains_lower_ci.
  - apply contains_lower_not_ci in C.
    destruct (first_format items (lower text)) as [f|].
    + destruct IH as (before & keyword & after & -> & O & B).
      exists ((k, v) :: before), keyword, after.
      repeat split; [exact O|]. now constructor.
    + now constructor.
Qed.

(** ** The context detector, and the output format *)

(** C3.  [detect_context] scores each of the five categories by the number
    of its keywords that occur as substrings of the lower-cased text, each
    keyword counted once.  Either every category scores 0 and the result is
    "general", or the result is a category of the table with a positive
    score that every category before it in the table order technical,
    educational, creative, analytical, business scores strictly below, and
    no category after it scores above: the highest score wins, the earliest
    among equals. *)
Theorem detect_context_highest_score (text : string) :
  let score := fun c => category_score c text in
  ((detect_context text = "general"
    /\ Forall (fun c => score c = 0) categories)
   \/ (exists before after,
          (categories = before ++ detect_context text :: after)%list
          /\ 0 < score (detect_context text)
          /\ Forall (fun c => score c < score (detect_context text)) before
          /\ Forall (fun c => score c <= score (detect_context text)) after))
  /\ map fst context_keywords = categories
  /\ (forall c keywords,
        In (c, keywords) context_keywords ->
        score c
        = List.length
            (filter (fun keyword => contains keyword (lower text)) keywords))
  /\ (forall keyword,
        contains keyword (lower text) = true <-> occurs keyword (lower text)).
Proof.
  intros score. split; [apply detect_context_cases|].
  split; [reflexivity|]. split; [|intros keyword; apply contains_occurs].
  intros c keywords I. cbn in I.
  repeat (destruct I as [I|I]; [injection I as <- <-; reflexivity|]).
  destruct I.
Qed.

(** C6.  [suggest_output_format] returns the label of the first keyword, in
    the order bullet, list, step, table, compare, summary, code, essay, that
    occurs in the text with the case ignored; when none occurs it returns
    the entry of the context in the table of defaults, and "detailed
    explanation" for a context the table does not have.  "Compare React and
    Vue.js" is analyzed to the context "analytical", the problem "React and
    Vue.js" and the output format "comparative analysis". *)
Theorem suggest_output_format_first_keyword (text ctx : string) :
  ((exists before keyword format_type after,
       (format_keywords = before ++ (keyword, format_type) :: after)%list
       /\ occurs_ci keyword text
       /\ Forall (fun '(k, _) => ~ occurs_ci k text) before
       /\ suggest_output_format text ctx = format_type)
   \/ (Forall (fun '(k, _) => ~ occurs_ci k text) format_keywords
       /\ (In (ctx, suggest_output_format text ctx) context_formats
           \/ (~ In ctx (map fst context_formats)
               /\ suggest_output_format text ctx = "detailed explanation"))))
  /\ map fst format_keywords
     = ["bullet"; "list"; "step"; "table"; "compare"; "summary"; "code";
        "essay"]
  /\ context (analyze_prompt "Compare React and Vue.js") = "analytical"
  /\ problem (analyze_prompt "Compare React and Vue.js") = "React and Vue.js"
  /\ output_format (analyze_prompt "Compare React and Vue.js")
     = "comparative analysis".
Proof.
  split; [|vm_compute; repeat split].
  unfold suggest_output_format. cbv zeta.
  pose proof (first_format_spec text format_keywords) as F.
  destruct (first_format format_keywords (lower text)) as [f|].
  - left. destruct F as (before & keyword & after & E & O & B).
    now exists before, keyword, f, after.
  - right. split; [exact F|].
    destruct (dict_get context_formats ctx) as [f|] eqn:D.
    + left. now apply dict_get_in.
    + right. split; [now apply dict_get_none | reflexivity].
Qed.

(** ** Normalization *)

Lemma take_drop (n : nat) (s : string) : take n s ++ drop n s = s.
Proof.
  revert s. induction n as [|n IH]; intros [|c s]; cbn; try reflexivity.
  now rewrite IH.
Qed.

Lemma starts_with_take (w t : string) :
  starts_with true w t = true -> lower (take (String.length w) t) = lower w.
Proof.
  revert t. induction w as [|p w IH]; intros [|c t]; cbn [starts_with];
    try discriminate; try reflexivity.
  intros H. apply andb_prop in H. destruct H as [H1 H2].
  unfold lit_ok in H1. apply Ascii.eqb_eq in H1.
  cbn [String.length take lower]. now rewrite H1, IH.
Qed.

Lemma lstrip_split (s : string) :
  exists ws, s = ws ++ lstrip s /\ all_space ws = true.
Proof.
  induction s as [|c s IH]; [now exists ""|]. cbn [lstrip].
  destruct (isspace c) eqn:E; [|now exists ""].
  destruct IH as (ws & F & A). exists (String c ws). cbn.
  rewrite E, A. now rewrite <- F.
Qed.

(** One step of the loop over the fillers: nothing goes, or the leading
    filler and the whitespace after it go. *)
Lemma strip_filler_step (w t : string) :
  strip_filler w t = t
  \/ exists pre ws,
       t = pre ++ ws ++ strip_filler w t
       /\ lower pre = lower w /\ ws <> "" /\ all_space ws = true.
Proof.
  unfold strip_filler. destruct (begins_with_filler w t) eqn:B; [|now left].
  right. unfold begins_with_filler in B. apply andb_prop in B.
  destruct B as [W B]. exists (take (String.length w) t).
  pose proof (take_drop (String.length w) t) as TD.
  destruct (drop (String.length w) t) as [|c u]; [discriminate|].
  cbn [lstrip]. rewrite B. destruct (lstrip_split u) as (ws & F & A).
  exists (String c ws). repeat split.
  - cbn [append]. now rewrite <- F.
  - now apply starts_with_take.
  - discriminate.
  - cbn. now rewrite B, A.
Qed.

Lemma strip_filler_suffix (w t : string) : suffix_of (strip_filler w t) t.
Proof.
  destruct (strip_filler_step w t) as [->|(pre & ws & E & _)];
    [apply suffix_of_refl|].
  exists (pre ++ ws). now rewrite append_assoc.
Qed.

(** C5, as stated: at most one filler phrase goes, the first one the
    collapsed text begins with.  On "please can you help" the analyzer
    removes two, "please" and then "can you", which stood mid-string. *)
Lemma clean_prompt_removes_two_fillers :
  clean_prompt "please can you help" <> spec_normalize "please can you help"
  /\ clean_prompt "please can you help" = "help"
  /\ spec_normalize "please can you help" = "can you help".
Proof. vm_compute. repeat split. discriminate. Qed.

(** C5, amended.  After trimming and whitespace collapsing, the five
    fillers "please", "can you", "could you", "i need", "i want" are tried
    once each, in this order, on the text as the fillers before have left
    it; a filler goes, with the whitespace after it, when that text begins
    with it, the case ignored, and whitespace follows.  So up to five
    leading phrases go, one that stood behind another filler among them,
    and what is left is a suffix of the collapsed text. *)
Theorem clean_prompt_removes_leading_fillers (prompt : string) :
  clean_prompt prompt
  = fold_left (fun t w => strip_filler w t) filler_words
      (collapse (strip prompt))
  /\ (forall w t,
        strip_filler w t = t
        \/ exists pre ws,
             t = pre ++ ws ++ strip_filler w t
             /\ lower pre = lower w /\ ws <> "" /\ all_space ws = true)
  /\ suffix_of (clean_prompt prompt) (collapse (strip prompt))
  /\ clean_prompt "Please can you COULD you i need I want help" = "help"
  /\ clean_prompt "can you please help" = "please help".
Proof.
  split; [apply clean_prompt_unfold|].
  split; [apply strip_filler_step|].
  split; [|vm_compute; now split].
  rewrite clean_prompt_unfold. generalize (collapse (strip prompt)) as t.
  generalize filler_words as ws.
  induction ws as [|w ws IH]; intros t; [apply suffix_of_refl|].
  cbn [fold_left]. eapply suffix_of_trans; [apply IH|].
  apply strip_filler_suffix.
Qed.

(** *** Texts that are already normalized *)

Lemma rstrip_length (s : string) :
  String.length (rstrip s) <= String.length s.
Proof.
  induction s as [|c s IH]; [reflexivity|]. cbn [rstrip].
  destruct (rstrip s) as [|d r].
  - destruct (isspace c); cbn; lia.
  - cbn in *. lia.
Qed.

Lemma strip_fix_no_leading_ws (s : string) :
  strip s = s -> no_leading_ws s = true.
Proof.
  unfold strip. destruct s as [|c s]; [reflexivity|].
  cbn [lstrip no_leading_ws]. destruct (isspace c); [|reflexivity].
  intros E. pose proof (rstrip_length (lstrip s)) as L1.
  pose proof (suffix_of_length _ _ (lstrip_suffix s)) as L2.
  rewrite E in L1. cbn in L1. lia.
Qed.

Lemma normalized_spaced (s : string) :
  rstrip s = s -> no_ws_run s = true -> only_spaces s = true ->
  spaced s = true.
Proof.
  induction s as [|c s IH]; [reflexivity|]. intros T R O.
  apply rstrip_cons_inv in T. destruct T as [T NE].
  cbn [no_ws_run] in R. apply andb_prop in R. destruct R as [R1 R2].
  cbn [only_spaces] in O. apply andb_prop in O. destruct O as [O1 O2].
  cbn [spaced]. rewrite (IH T R2 O2), andb_true_r.
  destruct (isspace c) eqn:E; [|reflexivity].
  cbn in O1. rewrite O1. cbn [andb].
  destruct s as [|d s]; [now specialize (NE eq_refl)|].
  cbn in R1. now destruct (isspace d).
Qed.

Lemma fold_strip_filler_id (s : string) (ws : list string) :
  existsb (fun w => begins_with_filler w s) ws = false ->
  fold_left (fun t w => strip_filler w t) ws s = s.
Proof.
  induction ws as [|w ws IH]; [reflexivity|]. cbn [existsb fold_left].
  intros H. apply orb_false_elim in H. destruct H as [H1 H2].
  unfold strip_filler at 2. rewrite H1. now apply IH.
Qed.

(** C9, as stated.  "Explain", a tab, "recursion" has no leading or
    trailing whitespace, no two whitespace characters in a row and no
    filler prefix, and is not returned unchanged: the tab becomes a
    space. *)
Lemma clean_prompt_changes_tab :
  ~ (normalized tabbed_prompt -> clean_prompt tabbed_prompt = tabbed_prompt).
Proof.
  intros H. assert (N : normalized tabbed_prompt) by (vm_compute; auto).
  specialize (H N). vm_compute in H. discriminate H.
Qed.

(** C9, amended.  A text without leading or trailing whitespace, without
    two whitespace characters in a row, whose whitespace characters are
    all spaces, and that begins with no filler followed by whitespace, is
    returned unchanged by [clean_prompt]. *)
Theorem clean_prompt_normalized_fixpoint (s : string) :
  normalized s -> only_spaces s = true -> clean_prompt s = s.
Proof.
  intros (T & R & F) O. pose proof (strip_fix_no_leading_ws s T) as NL.
  assert (T' : rstrip s = s)
    by (unfold strip in T; now rewrite (lstrip_id s NL) in T).
  rewrite clean_prompt_unfold, T. unfold collapse, Re.sub.
  rewrite collapse_go_id by now apply normalized_spaced.
  now apply fold_strip_filler_id.
Qed.

Lemma clean_prompt_normalized_fixpoint_witness :
  normalized "Explain blockchain technology"
  /\ only_spaces "Explain blockchain technology" = true
  /\ clean_prompt "Explain blockchain technology"
     = "Explain blockchain technology".
Proof.
  assert (N : normalized "Explain blockchain technology")
    by (vm_compute; auto).
  assert (O : only_spaces "Explain blockchain technology" = true)
    by reflexivity.
  split; [exact N|]. split; [exact O|].
  exact (clean_prompt_normalized_fixpoint _ N O).
Defined.

(** ** Problem extraction *)

Lemma first_question_some (t : string) (ps : list regex) :
  (exists p m, In p ps /\ Re.search true p t = Some m) ->
  exists p' m', In p' ps /\ Re.search true p' t = Some m'
                /\ first_question ps t = strip (group1 m').
Proof.
  induction ps as [|q ps IH]; intros (p & m & I & H); [destruct I|].
  cbn [first_question]. destruct (Re.search true q t) as [m0|] eqn:Q.
  - exists q, m0. repeat split; [now left | exact Q].
  - destruct I as [->|I]; [congruence|].
    destruct IH as (p' & m' & I' & H' & E); [now exists p, m|].
    exists p', m'. repeat split; [now right | exact H' | exact E].
Qed.

(** C10.  The question patterns are not anchored: when one of them matches
    at any place of the text, after any prefix, [extract_problem] returns
    the trimmed group of a pattern's leftmost match and not the whole text.
    In "Tell me what is recursion" no pattern matches at the start, the
    first one matches further on, and the problem is "recursion". *)
Theorem extract_problem_unanchored :
  (forall (pre s : string) (p : regex) (m : mstate),
      In p question_patterns ->
      match_here true (String.length (pre ++ s)) p s = Some m ->
      exists p' m',
        In p' question_patterns
        /\ Re.search true p' (pre ++ s) = Some m'
        /\ extract_problem (pre ++ s) = strip (group1 m'))
  /\ extract_problem "Tell me what is recursion" = "recursion"
  /\ Forall (fun p => match_here true 25 p "Tell me what is recursion" = None)
       question_patterns
  /\ clean_prompt "Tell me what is recursion" = "Tell me what is recursion".
Proof.
  split; [|vm_compute; repeat split; repeat constructor].
  intros pre s p m I H. apply first_question_some.
  destruct (search_from_complete true _ p pre s m H) as [m' S'].
  now exists p, m'.
Qed.

Lemma extract_problem_unanchored_witness :
  exists p' m',
    In p' question_patterns
    /\ Re.search true p' ("Tell me " ++ "what is recursion") = Some m'
    /\ extract_problem ("Tell me " ++ "what is recursion")
       = strip (group1 m').
Proof.
  apply (proj1 extract_problem_unanchored "Tell me " "what is recursion"
           (hd Eps question_patterns) (MState "" (Some "recursion"))).
  - now left.
  - vm_compute. reflexivity.
Defined.

(** ** The endpoint *)

Lemma not_blank (prompt : string) :
  strip prompt <> "" -> (prompt =? "") || (strip prompt =? "") = false.
Proof.
  intros NE. apply orb_false_intro; apply String.eqb_neq; [|exact NE].
  intros ->. now apply NE.
Qed.

(** Without a result of [call_gemini] the endpoint answers with the local
    analysis, tagged "local". *)
Lemma enhance_endpoint_fallback (e : env) (prompt : string) :
  strip prompt <> "" -> call_gemini e prompt = None ->
  enhance_endpoint e prompt
  = Returned
      (Enhancement prompt (as_json (analyze_prompt prompt))
         [ ("timestamp", now e); ("enhancement_version", "1.0.0");
           ("processing_time", "N/A"); ("source", "local") ]).
Proof.
  intros NE C. unfold enhance_endpoint. rewrite (not_blank _ NE), C.
  reflexivity.
Qed.

Lemma all_in_object_missing (items : list (string * json)) (k : string)
      (keys : list string) :
  In k keys -> dict_get items k = None ->
  all_in keys (JObj items) = Some false.
Proof.
  intros I D. induction keys as [|k' keys IH]; [destruct I|].
  cbn [all_in py_in]. destruct (dict_get items k') eqn:D'; [|reflexivity].
  destruct I as [->|I]; [congruence | now apply IH].
Qed.

(** [call_gemini] gives [None] when the service raises, when its text is
    not JSON, and when the JSON is an object that lacks one of the keys. *)
Lemma call_gemini_failures (e : env) (prompt : string) :
  (generate_content e [system_message; user_message prompt] = GenRaises ->
   call_gemini e prompt = None)
  /\ (forall text,
        generate_content e [system_message; user_message prompt]
        = GenResult (Some text) ->
        json_loads e (json_part (strip text)) = None ->
        call_gemini e prompt = None)
  /\ (forall text items k,
        generate_content e [system_message; user_message prompt]
        = GenResult (Some text) ->
        json_loads e (json_part (strip text)) = Some (JObj items) ->
        In k required_keys -> dict_get items k = None ->
        call_gemini e prompt = None).
Proof.
  unfold call_gemini.
  destruct (key_missing e || negb (genai e)); [repeat split|].
  repeat split.
  - now intros ->.
  - intros text -> L. cbv zeta. fold (json_part (strip text)). now rewrite L.
  - intros text items k -> L I D. cbv zeta. fold (json_part (strip text)).
    rewrite L. now rewrite (all_in_object_missing items k required_keys I D).
Qed.

(** C1.  A reply that is JSON and has none of the four keys, the array of
    their names, is taken by [call_gemini] for an object that has them,
    because [k in data] on a list is membership; the endpoint then asks the
    list for [get], and the error is not caught: no local result is
    returned. *)
Theorem enhance_endpoint_array_reply_unhandled :
  call_gemini array_env "What is machine learning?"
  = Some (LLMResult "What is machine learning?" array_data
            [("source", "gemini")])
  /\ enhance_endpoint array_env "What is machine learning?"
     = Unhandled "AttributeError".
Proof. vm_compute. split; reflexivity. Qed.

(** C4.  When the service is configured and its text holds a JSON object
    with the four keys, the endpoint returns the merged result: each field
    is the value of the service when that value is truthy and the value of
    the local analysis otherwise, and the source is "gemini+local".  With
    an empty [output_format] and three truthy values, the output format is
    the local one and the three other fields are the service's. *)
Theorem enhance_endpoint_merges (e : env) (prompt text : string)
        (items : list (string * json)) (c p s o : json) :
  strip prompt <> "" ->
  key_missing e = false -> genai e = true ->
  generate_content e [system_message; user_message prompt]
  = GenResult (Some text) ->
  json_loads e (json_part (strip text)) = Some (JObj items) ->
  dict_get items "context" = Some c ->
  dict_get items "problem" = Some p ->
  dict_get items "expected_solution" = Some s ->
  dict_get items "output_format" = Some o ->
  enhance_endpoint e prompt
  = Returned
      (Enhancement prompt
         (Fields (or_else c (context (analyze_prompt prompt)))
            (or_else p (problem (analyze_prompt prompt)))
            (or_else s (expected_solution (analyze_prompt prompt)))
            (or_else o (output_format (analyze_prompt prompt))))
         [("source", "gemini+local")])
  /\ (truthy c = true -> truthy p = true -> truthy s = true ->
      o = JStr "" ->
      enhance_endpoint e prompt
      = Returned
          (Enhancement prompt
             (Fields c p s (JStr (output_format (analyze_prompt prompt))))
             [("source", "gemini+local")])).
Proof.
  intros NE K G R L Dc Dp Ds Do.
  assert (E : enhance_endpoint e prompt
              = Returned
                  (Enhancement prompt
                     (Fields (or_else c (context (analyze_prompt prompt)))
                        (or_else p (problem (analyze_prompt prompt)))
                        (or_else s (expected_solution (analyze_prompt prompt)))
                        (or_else o (output_format (analyze_prompt prompt))))
                     [("source", "gemini+local")])).
  { unfold enhance_endpoint. rewrite (not_blank _ NE).
    unfold call_gemini. rewrite K, G, R. cbn [negb orb]. cbv zeta.
    fold (json_part (strip text)). rewrite L.
    cbn [all_in required_keys py_in]. rewrite Dc, Dp, Ds, Do.
    cbn [llm_enhanced_prompt]. rewrite Dc, Dp, Ds, Do. reflexivity. }
  split; [exact E|]. intros Tc Tp Ts ->. rewrite E.
  unfold or_else. now rewrite Tc, Tp, Ts.
Qed.

Lemma enhance_endpoint_merges_witness :
  enhance_endpoint object_env untidy_prompt
  = Returned
      (Enhancement untidy_prompt
         (Fields (JStr "physics") (JStr "why the sky is blue")
            (JStr "a short explanation") (JStr "step-by-step guide"))
         [("source", "gemini+local")]).
Proof.
  refine (proj2 (enhance_endpoint_merges object_env untidy_prompt
                   ("Here it is: " ++ object_text ++ " Done.")
                   [ ("context", JStr "physics");
                     ("problem", JStr "why the sky is blue");
                     ("expected_solution", JStr "a short explanation");
                     ("output_format", JStr "") ]
                   (JStr "physics") (JStr "why the sky is blue")
                   (JStr "a short explanation") (JStr "")
                   _ _ _ _ _ _ _ _ _) _ _ _ _);
    try reflexivity.
  vm_compute. discriminate.
Defined.

(** C7.  The [original_prompt] of what [enhance_prompt] returns, and of
    what the endpoint returns on the local path and on the merged path, is
    the prompt as it came in. *)
Theorem original_prompt_untouched :
  (forall now prompt, original_prompt (enhance_prompt now prompt) = prompt)
  /\ (forall e prompt r,
        enhance_endpoint e prompt = Returned r ->
        original_prompt r = prompt
        /\ (dict_get (metadata r) "source" = Some "local"
            \/ dict_get (metadata r) "source" = Some "gemini+local")).
Proof.
  split; [reflexivity|]. intros e prompt r. unfold enhance_endpoint.
  destruct ((prompt =? "") || (strip prompt =? "")); [discriminate|].
  destruct (call_gemini e prompt) as [llm|].
  - destruct (llm_enhanced_prompt llm); try discriminate.
    intros [= <-]. split; [reflexivity | now right].
  - intros [= <-]. split; [reflexivity | now left].
Qed.

Lemma original_prompt_untouched_witness :
  (exists r, enhance_endpoint local_env untidy_prompt = Returned r
             /\ original_prompt r = untidy_prompt
             /\ dict_get (metadata r) "source" = Some "local")
  /\ (exists r, enhance_endpoint object_env untidy_prompt = Returned r
                /\ original_prompt r = untidy_prompt
                /\ dict_get (metadata r) "source" = Some "gemini+local")
  /\ clean_prompt untidy_prompt = "explain why the sky is blue".
Proof.
  split; [|split; [|vm_compute; reflexivity]].
  - eexists. split; [vm_compute; reflexivity|].
    split; [|reflexivity].
    apply (proj2 original_prompt_untouched local_env). vm_compute.
    reflexivity.
  - eexists. split; [vm_compute; reflexivity|].
    split; [|reflexivity].
    apply (proj2 original_prompt_untouched object_env). vm_compute.
    reflexivity.
Defined.

(** ** More on the endpoint *)


Lemma not_blank_inv (prompt : string) :
  (prompt =? "") || (strip prompt =? "") = false -> strip prompt <> "".
Proof.
  intros H. apply orb_false_elim in H. destruct H as [_ H].
  now apply String.eqb_neq.
Qed.

Lemma all_in_true (keys : list string) (data : json) :
  all_in keys data = Some true <->
  forall k, In k keys -> py_in k data = Some true.
Proof.
  induction keys as [|k keys IH]; cbn [all_in].
  - split; [intros _ k [] | reflexivity].
  - destruct (py_in k data) as [[|]|] eqn:P.
    + rewrite IH. split.
      * intros H k' [<-|I]; [exact P | now apply H].
      * intros H k' I. apply H. now right.
    + split; [discriminate|]. intros H.
      specialize (H k (or_introl eq_refl)). congruence.
    + split; [discriminate|]. intros H.
      specialize (H k (or_introl eq_refl)). congruence.
Qed.

(** What a result of [call_gemini] tells. *)
Lemma call_gemini_some_inv (e : env) (prompt : string) (r : llm_result) :
  call_gemini e prompt = Some r ->
  key_missing e = false /\ genai e = true
  /\ exists rt data,
      generate_content e [system_message; user_message prompt] = GenResult rt
      /\ json_loads e (json_part (reply_text rt)) = Some data
      /\ all_in required_keys data = Some true
      /\ r = LLMResult prompt data [("source", "gemini")].
Proof.
  unfold call_gemini.
  destruct (key_missing e); [discriminate|].
  destruct (genai e); [|discriminate]. cbn [orb negb].
  destruct (generate_content e [system_message; user_message prompt])
    as [|rt] eqn:R; [discriminate|].
  cbv zeta. fold (reply_text rt). fold (json_part (reply_text rt)).
  destruct (json_loads e (json_part (reply_text rt))) as [data|] eqn:L;
    [|discriminate].
  destruct (all_in required_keys data) as [[|]|] eqn:A; try discriminate.
  intros [= <-]. split; [reflexivity|]. split; [reflexivity|].
  exists rt, data. auto.
Qed.

Lemma call_gemini_some_intro (e : env) (prompt : string)
      (rt : option string) (data : json) :
  key_missing e = false -> genai e = true ->
  generate_content e [system_message; user_message prompt] = GenResult rt ->
  json_loads e (json_part (reply_text rt)) = Some data ->
  all_in required_keys data = Some true ->
  call_gemini e prompt = Some (LLMResult prompt data [("source", "gemini")]).
Proof.
  intros K G R L A. unfold call_gemini. rewrite K, G, R. cbn [orb negb].
  cbv zeta. fold (reply_text rt). fold (json_part (reply_text rt)).
  now rewrite L, A.
Qed.

Lemma truthy_str (s : string) : s <> "" -> truthy (JStr s) = true.
Proof. intros N. cbn. apply negb_true_iff. now apply String.eqb_neq. Qed.

Lemma py_or_truthy (x : option json) (s : string) :
  s <> "" -> truthy (py_or x (JStr s)) = true.
Proof.
  intros N. unfold py_or. destruct x as [v|]; [|now apply truthy_str].
  destruct (truthy v) eqn:T; [exact T | now apply truthy_str].
Qed.

Lemma analyze_prompt_nonblank (prompt : string) :
  strip prompt <> "" ->
  context (analyze_prompt prompt) <> ""
  /\ problem (analyze_prompt prompt) <> ""
  /\ expected_solution (analyze_prompt prompt) <> ""
  /\ output_format (analyze_prompt prompt) <> "".
Proof.
  intros NE. destruct (clean_prompt_tidy prompt NE) as [T N].
  unfold analyze_prompt. cbn [context problem expected_solution output_format].
  repeat split.
  - apply detect_context_nonempty.
  - now apply extract_problem_nonempty.
  - apply determine_solution_approach_nonempty.
  - apply suggest_output_format_nonempty.
Qed.



(** X2.  The flag [gemini] of the health endpoint is the negation of the
    guard of [call_gemini].  When it is false, [call_gemini] returns
    [None] for every prompt without asking the service, and the endpoint
    answers every prompt that is not blank with the local analysis and the
    metadata timestamp, enhancement_version, processing_time and
    source = "local". *)
Theorem health_false_means_local (e : env) :
  gemini (health e) = negb (key_missing e || negb (genai e))
  /\ (gemini (health e) = false ->
      forall prompt,
        call_gemini e prompt = None
        /\ (strip prompt <> "" ->
            enhance_endpoint e prompt = Returned (local_answer e prompt))).
Proof.
  assert (F : gemini (health e) = negb (key_missing e || negb (genai e))).
  { unfold health, key_missing. cbn [gemini].
    destruct (GEMINI_API_KEY e) as [key|]; [|reflexivity].
    destruct (key =? ""); [reflexivity|]. now destruct (genai e). }
  split; [exact F|]. intros H prompt. rewrite F in H.
  apply negb_false_iff in H.
  assert (C : call_gemini e prompt = None)
    by (unfold call_gemini; now rewrite H).
  split; [exact C|]. intros NE. now apply enhance_endpoint_fallback.
Qed.

Lemma health_false_means_local_witness :
  gemini (health local_env) = false
  /\ enhance_endpoint local_env untidy_prompt
     = Returned (local_answer local_env untidy_prompt).
Proof.
  split; [reflexivity|].
  apply (proj2 (health_false_means_local local_env)); [reflexivity|].
  vm_compute. discriminate.
Defined.

(** X3.  For a prompt that is not blank, the endpoint answers with the
    local analysis tagged source = "local" whenever the service raises,
    gives no text that [json.loads] accepts, gives a JSON object that lacks
    one of the four keys, or gives JSON null, a boolean or a number. *)
Theorem enhance_endpoint_recovers (e : env) (prompt : string) :
  strip prompt <> "" ->
  generate_content e [system_message; user_message prompt] = GenRaises
  \/ (exists rt,
         generate_content e [system_message; user_message prompt]
         = GenResult rt
         /\ (json_loads e (json_part (reply_text rt)) = None
             \/ (exists items k,
                    json_loads e (json_part (reply_text rt))
                    = Some (JObj items)
                    /\ In k required_keys /\ dict_get items k = None)
             \/ json_loads e (json_part (reply_text rt)) = Some JNull
             \/ (exists b,
                    json_loads e (json_part (reply_text rt))
                    = Some (JBool b))
             \/ (exists n,
                    json_loads e (json_part (reply_text rt))
                    = Some (JNum n)))) ->
  enhance_endpoint e prompt = Returned (local_answer e prompt).
Proof.
  intros NE H. apply enhance_endpoint_fallback; [exact NE|].
  destruct (call_gemini e prompt) as [r|] eqn:C; [|reflexivity]. exfalso.
  apply call_gemini_some_inv in C.
  destruct C as (_ & _ & rt & data & R & L & A & _).
  destruct H as [H|(rt' & R' & H)]; [congruence|].
  rewrite R in R'. injection R' as <-. rewrite L in H.
  destruct H as [H|[(items & k & H & I & D)|[H|[(b & H)|(n & H)]]]];
    try discriminate H; injection H as ->; try discriminate A.
  rewrite (all_in_object_missing items k required_keys I D) in A.
  discriminate A.
Qed.

Lemma enhance_endpoint_recovers_witness :
  enhance_endpoint
    (service_env (GenResult (Some "I cannot help with that."))
       (fun _ => None))
    untidy_prompt
  = Returned
      (local_answer
         (service_env (GenResult (Some "I cannot help with that."))
            (fun _ => None))
         untidy_prompt).
Proof.
  apply enhance_endpoint_recovers; [vm_compute; discriminate|].
  right. exists (Some "I cannot help with that."). split; [reflexivity|].
  left. reflexivity.
Defined.

(** X4.  The endpoint ends in an unhandled exception exactly when the
    prompt is not blank and [call_gemini] has accepted parsed data that is
    a list with the four key names among its elements, or a str with the
    four key names among its substrings; the exception is then the
    AttributeError of the missing method [get]. *)
Theorem enhance_endpoint_unhandled (e : env) (prompt x : string) :
  enhance_endpoint e prompt = Unhandled x <->
  strip prompt <> "" /\ x = "AttributeError"
  /\ key_missing e = false /\ genai e = true
  /\ exists rt data,
      generate_content e [system_message; user_message prompt] = GenResult rt
      /\ json_loads e (json_part (reply_text rt)) = Some data
      /\ names_without_keys data.
Proof.
  unfold enhance_endpoint. split.
  - destruct ((prompt =? "") || (strip prompt =? "")) eqn:B; [discriminate|].
    apply not_blank_inv in B.
    destruct (call_gemini e prompt) as [llm|] eqn:C; [|discriminate].
    apply call_gemini_some_inv in C.
    destruct C as (K & G & rt & data & R & L & A & ->).
    cbn [llm_enhanced_prompt]. rewrite all_in_true in A.
    destruct data as [|b|n|s|l|items]; try discriminate;
      intros [= <-]; repeat split; try assumption; exists rt;
      try (specialize (A "context" (or_introl eq_refl)); discriminate A).
    + exists (JStr s). repeat split; try assumption. right. exists s.
      split; [reflexivity|]. intros k I. specialize (A k I). cbn in A.
      now injection A.
    + exists (JArr l). repeat split; try assumption. left. exists l.
      split; [reflexivity|]. intros k I. specialize (A k I). cbn in A.
      injection A as A. apply existsb_exists in A.
      destruct A as (v & Iv & E). destruct v; try discriminate.
      apply String.eqb_eq in E. now subst.
  - intros (NE & -> & K & G & rt & data & R & L & N).
    rewrite (not_blank _ NE).
    assert (A : all_in required_keys data = Some true).
    { apply all_in_true. intros k I.
      destruct N as [(l & -> & H)|(s & -> & H)]; cbn [py_in]; f_equal.
      - apply existsb_exists. exists (JStr k). split; [now apply H|].
        apply String.eqb_refl.
      - now apply H. }
    rewrite (call_gemini_some_intro e prompt rt data K G R L A).
    cbn [llm_enhanced_prompt].
    now destruct N as [(l & -> & _)|(s & -> & _)].
Qed.

(** X5.  In every result the endpoint returns, each of the four fields is
    truthy: a string that is not empty, or a truthy value of the
    service. *)
Theorem enhance_endpoint_fields_truthy (e : env) (prompt : string)
        (r : enhancement json) :
  enhance_endpoint e prompt = Returned r ->
  truthy (context (enhanced_prompt r)) = true
  /\ truthy (problem (enhanced_prompt r)) = true
  /\ truthy (expected_solution (enhanced_prompt r)) = true
  /\ truthy (output_format (enhanced_prompt r)) = true.
Proof.
  intros H.
  destruct ((prompt =? "") || (strip prompt =? "")) eqn:B.
  { unfold enhance_endpoint in H. rewrite B in H. discriminate H. }
  apply not_blank_inv in B.
  pose proof (analyze_prompt_nonblank prompt B) as F.
  destruct (call_gemini e prompt) as [llm|] eqn:C.
  - unfold enhance_endpoint in H. rewrite (not_blank _ B), C in H.
    remember (analyze_prompt prompt) as a eqn:Ea. clear Ea.
    destruct F as (F1 & F2 & F3 & F4).
    destruct (llm_enhanced_prompt llm); try discriminate H.
    apply (f_equal (fun o => match o with Returned r0 => r0 | _ => r end))
      in H.
    subst r.
    cbn [enhanced_prompt context problem expected_solution output_format].
    split; [now apply py_or_truthy|]. split; [now apply py_or_truthy|].
    split; now apply py_or_truthy.
  - rewrite (enhance_endpoint_fallback e prompt B C) in H.
    remember (analyze_prompt prompt) as a eqn:Ea. clear Ea.
    destruct F as (F1 & F2 & F3 & F4).
    apply (f_equal (fun o => match o with Returned r0 => r0 | _ => r end))
      in H.
    subst r.
    cbn [enhanced_prompt as_json context problem expected_solution
           output_format].
    split; [now apply truthy_str|]. split; [now apply truthy_str|].
    split; now apply truthy_str.
Qed.

Lemma enhance_endpoint_fields_truthy_witness :
  truthy (JStr "physics") = true
  /\ truthy (JStr "why the sky is blue") = true
  /\ truthy (JStr "a short explanation") = true
  /\ truthy (JStr "step-by-step guide") = true.
Proof.
  apply (enhance_endpoint_fields_truthy object_env untidy_prompt
           (Enhancement untidy_prompt
              (Fields (JStr "physics") (JStr "why the sky is blue")
                 (JStr "a short explanation") (JStr "step-by-step guide"))
              [("source", "gemini+local")])).
  vm_compute. reflexivity.
Defined.

(** ** The part of the reply that is parsed *)

Lemma char_free_app (c : ascii) (a b : string) :
  char_free c (a ++ b) = char_free c a && char_free c b.
Proof.
  induction a as [|d a IH]; cbn [append char_free]; [reflexivity|].
  now rewrite IH, andb_assoc.
Qed.

Lemma find_char_none (c : ascii) (s : string) :
  char_free c s = true -> find_char c s = (-1)%Z.
Proof.
  induction s as [|d s IH]; [reflexivity|]. cbn [char_free find_char].
  intros H. apply andb_prop in H. destruct H as [H1 H2].
  apply negb_true_iff in H1. now rewrite H1, (IH H2).
Qed.

Lemma rfind_char_none (c : ascii) (s : string) :
  char_free c s = true -> rfind_char c s = (-1)%Z.
Proof.
  induction s as [|d s IH]; [reflexivity|]. cbn [char_free rfind_char].
  intros H. apply andb_prop in H. destruct H as [H1 H2].
  apply negb_true_iff in H1. now rewrite H1, (IH H2).
Qed.

Lemma find_char_first (c : ascii) (pre rest : string) :
  char_free c pre = true ->
  find_char c (pre ++ String c rest) = Z.of_nat (String.length pre).
Proof.
  induction pre as [|d pre IH]; cbn [append char_free find_char String.length].
  - now rewrite Ascii.eqb_refl.
  - intros H. apply andb_prop in H. destruct H as [H1 H2].
    apply negb_true_iff in H1. rewrite H1, (IH H2).
    destruct (Z.eqb_spec (Z.of_nat (String.length pre)) (-1)); lia.
Qed.

Lemma rfind_char_last (c : ascii) (pre post : string) :
  char_free c post = true ->
  rfind_char c (pre ++ String c post) = Z.of_nat (String.length pre).
Proof.
  intros H. induction pre as [|d pre IH]; cbn [append rfind_char String.length].
  - now rewrite (rfind_char_none _ _ H), Ascii.eqb_refl.
  - rewrite IH.
    destruct (Z.eqb_spec (Z.of_nat (String.length pre)) (-1)); lia.
Qed.

Lemma substring_prefix (mid post : string) :
  substring 0 (String.length mid) (mid ++ post) = mid.
Proof.
  induction mid as [|c mid IH]; cbn; [now destruct post | now rewrite IH].
Qed.

Lemma substring_skip (pre s : string) (m : nat) :
  substring (String.length pre) m (pre ++ s) = substring 0 m s.
Proof. induction pre as [|c pre IH]; cbn; [reflexivity | exact IH]. Qed.

Lemma substring_nothing (n : nat) (s : string) : substring n 0 s = "".
Proof.
  revert n. induction s as [|c s IH]; intros [|n]; cbn; try reflexivity.
  apply IH.
Qed.

(** X6.  Prose around the JSON is cut away: when the text has no opening
    brace before some opening brace and no closing brace after some
    closing brace behind it, the part that is parsed runs from the one to
    the other, both included, whatever stands between them. *)
Theorem json_part_between_braces (pre mid post : string) :
  char_free "{" pre = true -> char_free "}" post = true ->
  json_part (pre ++ String "{" (mid ++ String "}" post))
  = String "{" (mid ++ "}").
Proof.
  intros Hpre Hpost.
  assert (F : find_char "{" (pre ++ String "{" (mid ++ String "}" post))
              = Z.of_nat (String.length pre))
    by now apply find_char_first.
  assert (L : rfind_char "}" (pre ++ String "{" (mid ++ String "}" post))
              = Z.of_nat (String.length pre + 1 + String.length mid)).
  { replace (pre ++ String "{" (mid ++ String "}" post))
      with ((pre ++ String "{" mid) ++ String "}" post)
      by (rewrite append_assoc; reflexivity).
    rewrite (rfind_char_last _ _ _ Hpost), length_append.
    cbn [String.length]. f_equal. lia. }
  unfold json_part. rewrite F, L. cbv zeta.
  destruct (Z.eqb_spec (Z.of_nat (String.length pre)) (-1)); [lia|].
  destruct (Z.eqb_spec
              (Z.of_nat (String.length pre + 1 + String.length mid)) (-1));
    [lia|].
  cbn [negb andb]. unfold slice. rewrite Nat2Z.id.
  replace (Z.to_nat
             (Z.of_nat (String.length pre + 1 + String.length mid) + 1
              - Z.of_nat (String.length pre)))
    with (String.length (String "{" (mid ++ "}"))).
  - replace (String "{" (mid ++ String "}" post))
      with (String "{" (mid ++ "}") ++ post)
      by (cbn; now rewrite append_assoc).
    rewrite substring_skip. apply substring_prefix.
  - cbn [String.length]. rewrite length_append. cbn [String.length]. lia.
Qed.

Lemma json_part_between_braces_witness :
  json_part ("Here it is: " ++ String "{" ("{}" ++ String "}" " Done."))
  = String "{" ("{}" ++ "}").
Proof.
  apply (json_part_between_braces "Here it is: " "{}" " Done.");
    reflexivity.
Defined.

(** X7.  A text without an opening brace, or without a closing brace, is
    parsed as it is; a text whose last closing brace stands before its
    first opening brace leaves the empty string to parse. *)
Theorem json_part_without_pair (text a b c : string) :
  (char_free "{" text = true \/ char_free "}" text = true ->
   json_part text = text)
  /\ (char_free "{" (a ++ String "}" b) = true ->
      char_free "}" (b ++ String "{" c) = true ->
      json_part (a ++ String "}" (b ++ String "{" c)) = "").
Proof.
  split.
  - unfold json_part. intros [H|H].
    + now rewrite (find_char_none _ _ H).
    + rewrite (rfind_char_none _ _ H). cbv zeta.
      now rewrite andb_false_r.
  - intros Ha Hc.
    assert (L : rfind_char "}" (a ++ String "}" (b ++ String "{" c))
                = Z.of_nat (String.length a))
      by now apply rfind_char_last.
    assert (F : find_char "{" (a ++ String "}" (b ++ String "{" c))
                = Z.of_nat (String.length a + 1 + String.length b)).
    { replace (a ++ String "}" (b ++ String "{" c))
        with ((a ++ String "}" b) ++ String "{" c)
        by (rewrite append_assoc; reflexivity).
      rewrite (find_char_first _ _ _ Ha), length_append.
      cbn [String.length]. f_equal. lia. }
    unfold json_part. rewrite F, L. cbv zeta.
    destruct (Z.eqb_spec
                (Z.of_nat (String.length a + 1 + String.length b)) (-1));
      [lia|].
    destruct (Z.eqb_spec (Z.of_nat (String.length a)) (-1)); [lia|].
    cbn [negb andb]. unfold slice.
    replace (Z.to_nat
               (Z.of_nat (String.length a) + 1
                - Z.of_nat (String.length a + 1 + String.length b)))
      with 0 by lia.
    apply substring_nothing.
Qed.

Lemma json_part_without_pair_witness :
  json_part "no braces here" = "no braces here"
  /\ json_part ("a" ++ String "}" (" b " ++ String "{" "c")) = "".
Proof.
  split.
  - apply (proj1 (json_part_without_pair "no braces here" "" "" "")).
    left. reflexivity.
  - apply (proj2 (json_part_without_pair "" "a" " b " "c")); reflexivity.
Defined.

(** ** More on normalization *)

Lemma rstrip_no_leading_ws (s : string) :
  no_leading_ws s = true -> no_leading_ws (rstrip s) = true.
Proof.
  destruct s as [|c s]; [reflexivity|]. cbn [no_leading_ws rstrip].
  intros H. destruct (rstrip s); [|exact H].
  apply negb_true_iff in H. rewrite H. cbn. now rewrite H.
Qed.

Lemma strip_idem (s : string) : strip (strip s) = strip s.
Proof.
  unfold strip.
  rewrite (lstrip_id (rstrip (lstrip s)))
    by (apply rstrip_no_leading_ws, lstrip_no_leading_ws).
  apply rstrip_idem.
Qed.

Lemma spaced_rstrip (s : string) : spaced s = true -> rstrip s = s.
Proof.
  induction s as [|c s IH]; [reflexivity|]. cbn [spaced rstrip].
  intros H. apply andb_prop in H. destruct H as [H1 H2].
  rewrite (IH H2). destruct s as [|d s]; [|reflexivity].
  destruct (isspace c); [|reflexivity].
  rewrite andb_false_r in H1. discriminate H1.
Qed.

Lemma tidy_strip (s : string) : tidy s = true -> strip s = s.
Proof.
  unfold tidy, strip. intros H. apply andb_prop in H. destruct H as [H1 H2].
  rewrite (lstrip_id s H1). now apply spaced_rstrip.
Qed.

Lemma tidy_collapse (s : string) : tidy s = true -> collapse s = s.
Proof.
  unfold tidy, collapse, Re.sub. intros H. apply andb_prop in H.
  destruct H as [_ H]. now apply collapse_go_id.
Qed.

Lemma clean_prompt_blank (prompt : string) :
  strip prompt = "" -> clean_prompt prompt = "".
Proof. intros H. rewrite clean_prompt_unfold, H. reflexivity. Qed.

Lemma clean_prompt_always_tidy (prompt : string) :
  tidy (clean_prompt prompt) = true.
Proof.
  destruct (string_dec (strip prompt) "") as [B|NE].
  - now rewrite (clean_prompt_blank _ B).
  - now apply clean_prompt_tidy.
Qed.

(** X8.  What [clean_prompt] returns is whitespace-normal for every
    prompt: its only whitespace characters are single spaces between
    characters that are not whitespace, and trimming it or collapsing its
    whitespace again changes nothing. *)
Theorem clean_prompt_whitespace_normal (prompt : string) :
  spaced (clean_prompt prompt) = true
  /\ no_ws_run (clean_prompt prompt) = true
  /\ only_spaces (clean_prompt prompt) = true
  /\ strip (clean_prompt prompt) = clean_prompt prompt
  /\ collapse (clean_prompt prompt) = clean_prompt prompt.
Proof.
  pose proof (clean_prompt_always_tidy prompt) as T.
  generalize dependent (clean_prompt prompt). intros t T.
  assert (Sp : spaced t = true)
    by (unfold tidy in T; now apply andb_prop in T).
  split; [exact Sp|]. split; [|split; [|split]].
  - clear T. induction t as [|c t IH]; [reflexivity|].
    cbn [spaced no_ws_run] in *. apply andb_prop in Sp.
    destruct Sp as [H1 H2]. rewrite (IH H2), andb_true_r.
    destruct (isspace c); [|reflexivity].
    apply andb_prop in H1. destruct H1 as [_ H1].
    destruct t as [|d t]; [discriminate|].
    apply negb_true_iff in H1. now rewrite H1.
  - clear T. induction t as [|c t IH]; [reflexivity|].
    cbn [spaced only_spaces] in *. apply andb_prop in Sp.
    destruct Sp as [H1 H2]. rewrite (IH H2), andb_true_r.
    destruct (isspace c); [|reflexivity].
    apply andb_prop in H1. now destruct H1 as [-> _].
  - now apply tidy_strip.
  - now apply tidy_collapse.
Qed.

(** X9.  A prompt is cleaned to the empty text exactly when it is blank,
    and for every blank prompt the analysis is the context "general", an
    empty problem, the general solution approach and the output format
    "detailed explanation". *)
Theorem analyze_prompt_blank (prompt : string) :
  (clean_prompt prompt = "" <-> strip prompt = "")
  /\ (strip prompt = "" ->
      analyze_prompt prompt
      = Fields "general" ""
          "Provide comprehensive information covering key aspects"
          "detailed explanation").
Proof.
  split; [split|].
  - intros E. destruct (string_dec (strip prompt) "") as [B|NE]; [exact B|].
    now destruct (clean_prompt_tidy prompt NE) as [_ N].
  - apply clean_prompt_blank.
  - intros B. unfold analyze_prompt. rewrite (clean_prompt_blank _ B).
    reflexivity.
Qed.

Lemma analyze_prompt_blank_witness :
  strip (String tab "   ") = ""
  /\ analyze_prompt (String tab "   ")
     = Fields "general" ""
         "Provide comprehensive information covering key aspects"
         "detailed explanation".
Proof.
  split; [reflexivity|].
  apply (proj2 (analyze_prompt_blank (String tab "   "))). reflexivity.
Defined.

(** X10.  The analysis does not depend on the whitespace around the prompt
    or on how much whitespace separates its words: the trimmed prompt, and
    the trimmed prompt with its whitespace collapsed, are cleaned and
    analyzed as the prompt itself. *)
Theorem analyze_prompt_whitespace_invariant (prompt : string) :
  clean_prompt (strip prompt) = clean_prompt prompt
  /\ analyze_prompt (strip prompt) = analyze_prompt prompt
  /\ clean_prompt (collapse (strip prompt)) = clean_prompt prompt
  /\ analyze_prompt (collapse (strip prompt)) = analyze_prompt prompt.
Proof.
  assert (E1 : clean_prompt (strip prompt) = clean_prompt prompt)
    by (rewrite !clean_prompt_unfold; now rewrite strip_idem).
  assert (E2 : clean_prompt (collapse (strip prompt)) = clean_prompt prompt).
  { rewrite !clean_prompt_unfold.
    pose proof (collapse_strip_tidy prompt) as T.
    now rewrite (tidy_strip _ T), (tidy_collapse _ T). }
  unfold analyze_prompt. now rewrite E1, E2.
Qed.

Lemma collapse_go_length (total n : nat) :
  forall s, String.length s <= n ->
            String.length (sub_go false total whitespace_run " " 0 s)
            <= String.length s.
Proof.
  induction n as [|n IH]; intros s L.
  - destruct s; [cbn; lia | simpl in L; lia].
  - destruct s as [|c s]; [cbn; lia|]. rewrite collapse_go_cons.
    simpl in L. destruct (isspace c).
    + pose proof (suffix_of_length _ _ (lstrip_suffix s)) as L'.
      assert (H : String.length
                    (sub_go false total whitespace_run " " 0 (lstrip s))
                  <= String.length (lstrip s)) by (apply IH; lia).
      cbn [String.length]. lia.
    + assert (H : String.length (sub_go false total whitespace_run " " 0 s)
                  <= String.length s) by (apply IH; lia).
      cbn [String.length]. lia.
Qed.

Lemma clean_prompt_suffix (prompt : string) :
  suffix_of (clean_prompt prompt) (collapse (strip prompt)).
Proof.
  rewrite clean_prompt_unfold. generalize (collapse (strip prompt)) as t.
  generalize filler_words as ws.
  induction ws as [|w ws IH]; intros t; [apply suffix_of_refl|].
  cbn [fold_left]. eapply suffix_of_trans; [apply IH|].
  apply strip_filler_suffix.
Qed.

(** X11.  Cleaning never makes a prompt longer. *)
Theorem clean_prompt_not_longer (prompt : string) :
  String.length (clean_prompt prompt) <= String.length prompt.
Proof.
  pose proof (suffix_of_length _ _ (clean_prompt_suffix prompt)) as L1.
  assert (L2 : String.length (collapse (strip prompt))
               <= String.length (strip prompt))
    by (unfold collapse, Re.sub; now apply (collapse_go_length _ _ _ (le_n _))).
  pose proof (rstrip_length (lstrip prompt)) as L3.
  pose proof (suffix_of_length _ _ (lstrip_suffix prompt)) as L4.
  unfold strip in *. lia.
Qed.

(** ** The vocabulary of the analysis *)

Lemma detect_context_in (text : string) :
  In (detect_context text) ("general" :: categories).
Proof.
  destruct (detect_context_cases text) as [[E _]|(b & a & E & _)].
  - left. now rewrite E.
  - right. rewrite E. apply in_or_app. right. now left.
Qed.

Lemma solution_row (prompt c : string) :
  In c ("general" :: categories) ->
  In (c, determine_solution_approach prompt c) context_approaches.
Proof.
  intros I. cbn in I.
  repeat (destruct I as [<-|I]; [cbn; auto 10|]). destruct I.
Qed.

Lemma suggest_output_format_in (text c : string) :
  In (suggest_output_format text c) output_formats.
Proof.
  unfold suggest_output_format. cbv zeta.
  destruct (first_format format_keywords (lower text)) as [f|] eqn:F.
  - apply first_format_in in F. cbn in F.
    repeat (destruct F as [<-|F]; [cbn; auto 10|]). destruct F.
  - destruct (dict_get context_formats c) as [f|] eqn:E; [|cbn; auto].
    apply dict_get_in in E. cbn in E.
    repeat (destruct E as [E|E]; [injection E as <- <-; cbn; auto 10|]).
    destruct E.
Qed.

(** X12.  For every prompt the context of the analysis is "general" or one
    of the five categories, the pair of context and expected solution is a
    row of the table of solution approaches, so that the default of the
    lookup is never what decides, and the output format is one of the
    eight labels of [self.output_formats]; the last holds for
    [suggest_output_format] under every context string. *)
Theorem analyze_prompt_vocabulary (prompt : string) :
  In (context (analyze_prompt prompt)) ("general" :: categories)
  /\ In (context (analyze_prompt prompt),
         expected_solution (analyze_prompt prompt)) context_approaches
  /\ In (output_format (analyze_prompt prompt)) output_formats
  /\ (forall text c, In (suggest_output_format text c) output_formats).
Proof.
  unfold analyze_prompt.
  cbn [context problem expected_solution output_format].
  generalize (clean_prompt prompt) as t. intros t.
  split; [apply detect_context_in|].
  split; [apply solution_row, detect_context_in|].
  split; [apply suggest_output_format_in|].
  apply suggest_output_format_in.
Qed.

(** ** More on problem extraction *)

Lemma starts_with_contains (w u t : string) :
  lower w = w -> starts_with true w u = true -> suffix_of u t ->
  contains w (lower t) = true.
Proof.
  intros Lw W [pre ->]. apply contains_lower_ci.
  exists pre, (take (String.length w) u), (drop (String.length w) u).
  split; [now rewrite take_drop|]. now rewrite (starts_with_take w u W).
Qed.

Lemma led_by_word (w : string) (r : regex) :
  lower w = w -> led_by (Cat (word w) r) w.
Proof.
  intros Lw. split; [exact Lw|]. intros total s m. unfold match_here.
  cbn [rmatch]. rewrite rmatch_word. cbn [rest].
  now destruct (starts_with true w s).
Qed.

Lemma question_patterns_led : Forall2 led_by question_patterns lead_words.
Proof.
  unfold question_patterns, lead_words.
  repeat (apply Forall2_cons; [apply led_by_word; reflexivity|]).
  apply Forall2_nil.
Qed.

Lemma search_led (p : regex) (w t : string) (m : mstate) :
  led_by p w -> Re.search true p t = Some m ->
  contains w (lower t) = true.
Proof.
  intros [Lw H] S'. unfold Re.search in S'.
  apply search_from_sound in S'. destruct S' as (u & Su & M).
  apply (starts_with_contains w u t Lw); [|exact Su]. exact (H _ _ _ M).
Qed.

Lemma first_question_fallback (t : string) (ps : list regex)
      (ws : list string) :
  Forall2 led_by ps ws ->
  existsb (fun w => contains w (lower t)) ws = false ->
  first_question ps t = t.
Proof.
  intros F. induction F as [|p w ps ws L F IH]; [reflexivity|].
  cbn [existsb first_question]. intros H. apply orb_false_elim in H.
  destruct H as [H1 H2].
  destruct (Re.search true p t) as [m|] eqn:S'; [|now apply IH].
  rewrite (search_led p w t m L S') in H1. discriminate H1.
Qed.

(** X13.  When none of the seven lead-ins "what ", "how ", "why ",
    "explain ", "describe ", "compare ", "analyze " occurs in the text, the
    case ignored, [extract_problem] returns the text as it is. *)
Theorem extract_problem_without_lead_in (text : string) :
  existsb (fun w => contains w (lower text)) lead_words = false ->
  extract_problem text = text.
Proof. apply first_question_fallback, question_patterns_led. Qed.

Lemma extract_problem_without_lead_in_witness :
  extract_problem "Create a marketing strategy for a startup"
  = "Create a marketing strategy for a startup".
Proof.
  apply extract_problem_without_lead_in. vm_compute. reflexivity.
Defined.

Lemma occurs_refl (s : string) : occurs s s.
Proof. exists "", "". cbn. now rewrite append_nil_r. Qed.

Lemma occurs_trans (a b c : string) : occurs a b -> occurs b c -> occurs a c.
Proof.
  intros (p & q & ->) (p' & q' & ->). exists (p' ++ p), (q ++ q').
  now rewrite !append_assoc.
Qed.

Lemma occurs_in_suffix (a u t : string) :
  occurs a u -> suffix_of u t -> occurs a t.
Proof.
  intros H [pre ->]. apply (occurs_trans _ _ _ H). exists pre, "".
  now rewrite append_nil_r.
Qed.

Lemma rstrip_prefix (s : string) : exists post, s = rstrip s ++ post.
Proof.
  induction s as [|c s IH]; [now exists ""|]. cbn [rstrip].
  destruct IH as (post & E). destruct (rstrip s) as [|d r].
  - destruct (isspace c); [now exists (String c s)|].
    exists s. reflexivity.
  - exists post. cbn. now rewrite E at 1.
Qed.

Lemma strip_occurs (s : string) : occurs (strip s) s.
Proof.
  unfold strip. destruct (lstrip_suffix s) as [pre E].
  destruct (rstrip_prefix (lstrip s)) as [post F].
  exists pre, post. now rewrite <- F.
Qed.

Lemma plus_loop_grp {R : Type} (greedy : bool) (cl : cclass)
      (k : mstate -> option R) (g : option string) (s : string) (x : R) :
  plus_loop greedy cl k g s = Some x ->
  exists s', k (MState s' g) = Some x /\ suffix_of s' s.
Proof.
  intros H. apply plus_loop_sound in H.
  destruct H as (c & p & s' & -> & _ & K). exists s'. split; [exact K|].
  now exists (String c p).
Qed.

Lemma rmatch_grp (icase : bool) (total : nat) (t : string) {R : Type}
      (r : regex) :
  forall (k : mstate -> option R) (st : mstate) (x : R),
    rmatch icase total r k st = Some x ->
    exists st',
      k st' = Some x /\ suffix_of (rest st') (rest st)
      /\ (suffix_of (rest st) t -> grp_in t st -> grp_in t st').
Proof.
  induction r as [|p| | |r1 IH1 r2 IH2|r1 IH1 r2 IH2|greedy cl|r IH];
    intros k st x; cbn [rmatch].
  - intros H. exists st. repeat split; [exact H|apply suffix_of_refl|auto].
  - destruct (rest st) as [|c s] eqn:E; [discriminate|].
    destruct (lit_ok icase p c); [|discriminate].
    intros H. exists (MState s (grp st)).
    repeat split; [exact H | apply suffix_of_tail | auto].
  - destruct (String.length (rest st) =? total)%nat; [|discriminate].
    intros H. exists st. repeat split; [exact H|apply suffix_of_refl|auto].
  - intros H. exists st. split; [|split; [apply suffix_of_refl|auto]].
    destruct (rest st) as [|c [|d s]]; [exact H | | discriminate].
    now destruct (Ascii.eqb c newline).
  - intros H. destruct (IH1 _ _ _ H) as (st1 & H1 & S1 & G1).
    destruct (IH2 _ _ _ H1) as (st2 & H2 & S2 & G2).
    exists st2. split; [exact H2|]. split.
    + eapply suffix_of_trans; eassumption.
    + intros St G. apply G2; [|now apply G1].
      eapply suffix_of_trans; eassumption.
  - destruct (rmatch icase total r1 k st) eqn:H1.
    + intros [= ->]. now apply IH1.
    + apply IH2.
  - intros H. apply plus_loop_grp in H. destruct H as (s' & K & S').
    exists (MState s' (grp st)). repeat split; [exact K | exact S' | auto].
  - intros H. destruct (IH _ _ _ H) as (st1 & H1 & S1 & G1).
    eexists. split; [exact H1|]. split; [exact S1|].
    intros St _ g [= <-]. destruct S1 as [pre E]. rewrite E.
    rewrite take_to_suffix.
    apply (occurs_in_suffix _ (rest st)); [|exact St].
    exists "", (rest st1). cbn. now rewrite <- E.
Qed.

Lemma search_group_occurs (p : regex) (t : string) (m : mstate) :
  Re.search true p t = Some m -> occurs (group1 m) t.
Proof.
  intros H. unfold Re.search in H. apply search_from_sound in H.
  destruct H as (u & Su & M). unfold match_here in M.
  destruct (rmatch_grp true (String.length t) t p _ _ _ M)
    as (st' & [= ->] & _ & G).
  cbn [rest grp] in G. unfold group1.
  destruct (grp m) as [g|] eqn:E.
  - apply (G Su); [intros g' H'; discriminate H' | exact E].
  - exists "", t. reflexivity.
Qed.

(** X14.  What [extract_problem] returns is always a part of its text: the
    text itself, or a contiguous stretch of it. *)
Theorem extract_problem_is_part (text : string) :
  occurs (extract_problem text) text.
Proof.
  unfold extract_problem. generalize question_patterns as ps.
  induction ps as [|p ps IH]; cbn [first_question]; [apply occurs_refl|].
  destruct (Re.search true p text) as [m|] eqn:S'; [|exact IH].
  eapply occurs_trans; [apply strip_occurs|].
  now apply (search_group_occurs p).
Qed.

(** X15.  On a text without leading or trailing whitespace, what
    [extract_problem] returns has none either. *)
Theorem extract_problem_trimmed (text : string) :
  strip text = text -> strip (extract_problem text) = extract_problem text.
Proof.
  intros T. unfold extract_problem. generalize question_patterns as ps.
  induction ps as [|p ps IH]; cbn [first_question]; [exact T|].
  destruct (Re.search true p text); [apply strip_idem | exact IH].
Qed.

Lemma extract_problem_trimmed_witness :
  strip (extract_problem "Explain   recursion  ?")
  = extract_problem "Explain   recursion  ?".
Proof. apply extract_problem_trimmed. reflexivity. Defined.

Lemma plus_loop_lazy_free {R : Type} (cl : cclass) (k : mstate -> option R)
      (g : option string) (q : ascii) :
  (forall r, k (MState (String q r) g) <> None) ->
  forall (s : string) (x : R),
    plus_loop false cl k g s = Some x ->
    exists c p s',
      s = String c p ++ s' /\ char_free q p = true
      /\ k (MState s' g) = Some x.
Proof.
  intros Q. induction s as [|c s IH]; intros x; [discriminate|].
  cbn [plus_loop]. destruct (class_ok cl c); [|discriminate].
  destruct (k (MState s g)) as [y|] eqn:K.
  - intros [= ->]. now exists c, "", s.
  - intros H. destruct (IH _ H) as (c1 & p1 & s' & -> & F & K').
    exists c, (String c1 p1), s'. repeat split; [|exact K'].
    cbn [char_free]. rewrite F, andb_true_r. apply negb_true_iff.
    destruct (Ascii.eqb_spec c1 q) as [->|]; [|reflexivity].
    now elim (Q (p1 ++ s')).
Qed.

(** Group 1 of [(.+?)(?:\?|$)] has no question mark behind its first
    character. *)
Lemma question_tail_group_free (total : nat) (s : string)
      (g : option string) (m : mstate) :
  rmatch true total question_tail (fun st => Some st) (MState s g) = Some m ->
  exists d g' s',
    s = String d g' ++ s' /\ grp m = Some (String d g')
    /\ char_free "?" g' = true.
Proof.
  rewrite question_tail_unfold. intros H.
  apply (plus_loop_lazy_free _ _ _ "?"%char) in H.
  - destruct H as (c & p & s' & -> & F & H).
    cbn [rest] in H. apply rmatch_end_grp in H. cbn [grp] in H.
    rewrite take_to_suffix in H. now exists c, p, s'.
  - intros r. cbn [rest rmatch grp].
    change (lit_ok true "?" "?") with true. cbn iota. discriminate.
Qed.

Lemma question_search_group_free (p : regex) (t : string) (m : mstate) :
  In p question_patterns -> spaced t = true ->
  Re.search true p t = Some m ->
  exists d g', group1 m = String d g' /\ isspace d = false
               /\ char_free "?" g' = true.
Proof.
  intros I Sp H. unfold Re.search in H.
  apply search_from_sound in H. destruct H as (u & Su & H).
  pose proof question_patterns_lead_to_tail as F.
  rewrite Forall_forall in F. apply (F p I) in H.
  destruct H as (s3 & g & S3 & H). cbn [rest] in S3.
  apply question_tail_group_free in H.
  destruct H as (d & g' & s' & -> & G & Fr).
  exists d, g'. split; [unfold group1; now rewrite G|]. split; [|exact Fr].
  apply (spaced_after_space " " d (g' ++ s')); [reflexivity|].
  apply (spaced_suffix _ t); [|exact Sp].
  eapply suffix_of_trans; eassumption.
Qed.

Lemma strip_cons_keep (d : ascii) (g : string) :
  isspace d = false ->
  exists g'' post, strip (String d g) = String d g'' /\ g = g'' ++ post.
Proof.
  intros D. unfold strip. cbn [lstrip]. rewrite D.
  destruct (rstrip_prefix (String d g)) as [post E].
  pose proof (rstrip_cons_ne d g D) as N.
  destruct (rstrip (String d g)) as [|d0 g'']; [now elim N|].
  cbn in E. injection E as <- E. now exists g'', post.
Qed.

Lemma first_question_free (t : string) (ps : list regex) :
  spaced t = true -> (forall p, In p ps -> In p question_patterns) ->
  (Forall (fun p => Re.search true p t = None) ps
   /\ first_question ps t = t)
  \/ exists d g, first_question ps t = String d g /\ isspace d = false
                 /\ char_free "?" g = true.
Proof.
  intros Sp. induction ps as [|p ps IH]; intros Sub; [left; now split|].
  cbn [first_question]. destruct (Re.search true p t) as [m|] eqn:S'.
  - right.
    destruct (question_search_group_free p t m (Sub p (or_introl eq_refl))
                Sp S') as (d & g' & -> & D & Fr).
    destruct (strip_cons_keep d g' D) as (g'' & post & -> & ->).
    exists d, g''. repeat split; [exact D|].
    rewrite char_free_app in Fr. now apply andb_prop in Fr.
  - destruct IH as [[F E]|H]; [intros q Q; apply Sub; now right | |].
    + left. split; [now constructor | exact E].
    + now right.
Qed.

(** X16.  For every prompt, either no question pattern matches the cleaned
    text and the problem is the cleaned text, or the problem starts with a
    character that is not whitespace and has no question mark behind that
    character: the question mark that ends the question, and what follows
    it, is never part of the problem. *)
Theorem problem_stops_at_question_mark (prompt : string) :
  (Forall (fun p => Re.search true p (clean_prompt prompt) = None)
     question_patterns
   /\ problem (analyze_prompt prompt) = clean_prompt prompt)
  \/ exists d g,
      problem (analyze_prompt prompt) = String d g
      /\ isspace d = false /\ char_free "?" g = true.
Proof.
  unfold analyze_prompt. cbn [problem]. unfold extract_problem.
  pose proof (clean_prompt_always_tidy prompt) as T.
  generalize dependent (clean_prompt prompt). intros t T.
  apply first_question_free; [|auto].
  unfold tidy in T. now apply andb_prop in T.
Qed.

(** ** [setup.py] *)

Lemma lstrip_all_space (ws s : string) :
  all_space ws = true -> lstrip (ws ++ s) = lstrip s.
Proof.
  induction ws as [|c ws IH]; [reflexivity|]. cbn [all_space append lstrip].
  intros H. apply andb_prop in H. destruct H as [H1 H2].
  rewrite H1. now apply IH.
Qed.

(** X17.  [read_requirements] returns, in the order of the file, the
    trimmed text of exactly the lines that are not blank and do not start
    with "#"; so no entry is empty and no entry has whitespace at either
    end. *)
Theorem read_requirements_entries (lines more : list string) (r : string) :
  (In r (read_requirements lines) <->
   exists line, In line lines /\ strip line <> ""
                /\ prefix "#" line = false /\ r = strip line)
  /\ (In r (read_requirements lines) -> r <> "" /\ strip r = r)
  /\ read_requirements (lines ++ more)
     = (read_requirements lines ++ read_requirements more)%list.
Proof.
  assert (E : In r (read_requirements lines) <->
              exists line, In line lines /\ strip line <> ""
                           /\ prefix "#" line = false /\ r = strip line).
  { unfold read_requirements. rewrite in_map_iff. split.
    - intros (line & <- & I). apply filter_In in I. destruct I as [I C].
      apply andb_prop in C. destruct C as [C1 C2].
      apply negb_true_iff in C1, C2. apply String.eqb_neq in C1.
      now exists line.
    - intros (line & I & N & P & ->). exists line. split; [reflexivity|].
      apply filter_In. split; [exact I|].
      apply String.eqb_neq in N. now rewrite N, P. }
  split; [exact E|]. split.
  - intros I. apply E in I. destruct I as (line & _ & N & _ & ->).
    split; [exact N | apply strip_idem].
  - unfold read_requirements. now rewrite filter_app, map_app.
Qed.

(** X18.  A comment that is indented is not recognized as one: a line of
    whitespace followed by "#" is kept by [read_requirements], as an entry
    that starts with "#". *)
Theorem read_requirements_keeps_indented_comment (ws rest : string) :
  ws <> "" -> all_space ws = true ->
  read_requirements [ws ++ String "#" rest] = [strip (String "#" rest)]
  /\ prefix "#" (strip (String "#" rest)) = true.
Proof.
  intros N A.
  assert (S' : strip (ws ++ String "#" rest) = strip (String "#" rest))
    by (unfold strip; now rewrite lstrip_all_space).
  assert (NE : strip (String "#" rest) <> "")
    by (now apply strip_cons_ne).
  assert (P : prefix "#" (ws ++ String "#" rest) = false).
  { destruct ws as [|c ws]; [now elim N|]. cbn [all_space] in A.
    apply andb_prop in A. destruct A as [A _]. cbn [append prefix].
    destruct (ascii_dec "#" c) as [<-|]; [discriminate A | reflexivity]. }
  split.
  - unfold read_requirements. cbn [filter]. rewrite S', P.
    apply String.eqb_neq in NE. rewrite NE. cbn [negb andb map].
    now rewrite S'.
  - destruct (strip_cons_keep "#" rest eq_refl) as (g & post & -> & _).
    cbn [prefix].
    destruct (ascii_dec "#" "#") as [_|n]; [now destruct g | now elim n].
Qed.

Lemma read_requirements_keeps_indented_comment_witness :
  read_requirements ["  " ++ String "#" " dev tools"]
  = [strip (String "#" " dev tools")]
  /\ prefix "#" (strip (String "#" " dev tools")) = true.
Proof.
  apply (read_requirements_keeps_indented_comment "  " " dev tools");
    [discriminate | reflexivity].
Defined.

(** ** The distributions of [quick_test.py] *)

Lemma dict_get_put_same {V : Type} (d : list (string * V)) (k : string)
      (v : V) :
  dict_get (dict_put d k v) k = Some v.
Proof.
  induction d as [|[k' v'] d IH]; cbn [dict_put dict_get].
  - now rewrite String.eqb_refl.
  - destruct (k' =? k) eqn:E; cbn [dict_get]; now rewrite E.
Qed.

Lemma dict_get_put_other {V : Type} (d : list (string * V)) (k k' : string)
      (v : V) :
  k <> k' -> dict_get (dict_put d k v) k' = dict_get d k'.
Proof.
  intros N. induction d as [|[k0 v0] d IH]; cbn [dict_put dict_get].
  - apply String.eqb_neq in N. now rewrite N.
  - destruct (String.eqb_spec k0 k) as [->|N0]; cbn [dict_get].
    + apply String.eqb_neq in N. now rewrite N.
    + now rewrite IH.
Qed.

Lemma fold_count_get (xs : list string) (x : string) :
  forall d,
    dict_get (fold_left count_one xs d) x
    = match dict_get d x, occurrences x xs with
      | None, 0 => None
      | None, n => Some n
      | Some c, n => Some (c + n)
      end.
Proof.
  induction xs as [|y xs IH]; intros d; cbn [fold_left occurrences].
  - destruct (dict_get d x); [f_equal; lia | reflexivity].
  - rewrite IH. unfold count_one.
    destruct (String.eqb_spec y x) as [->|N].
    + rewrite dict_get_put_same. cbn [Nat.add].
      destruct (dict_get d x); f_equal; lia.
    + rewrite (dict_get_put_other _ _ _ _ N). cbn [Nat.add]. reflexivity.
Qed.

Lemma dict_put_sum (d : list (string * nat)) (k : string) (v : nat) :
  list_sum (map snd (dict_put d k v))
  + match dict_get d k with Some c => c | None => 0 end
  = list_sum (map snd d) + v.
Proof.
  induction d as [|[k' v'] d IH]; cbn [dict_put dict_get map snd list_sum].
  - cbn. lia.
  - unfold list_sum in *.
    destruct (k' =? k); cbn [map snd fold_right]; lia.
Qed.

Lemma fold_count_sum (xs : list string) :
  forall d,
    list_sum (map snd (fold_left count_one xs d))
    = list_sum (map snd d) + List.length xs.
Proof.
  induction xs as [|y xs IH]; intros d; cbn [fold_left List.length]; [lia|].
  rewrite IH. unfold count_one.
  pose proof (dict_put_sum d y
                (match dict_get d y with Some n => n | None => 0 end + 1)).
  lia.
Qed.

(** X19.  The distribution [main] prints maps each context, and each
    output format, that was produced to the number of prompts that
    produced it, has no entry for the others, and its counts add up to the
    number of prompts. *)
Theorem distribution_counts (now : string) (prompts : list string)
        (x : string) :
  dict_get (context_counts now prompts) x
  = (let n := occurrences x (map (fun p => context (analyze_prompt p))
                               prompts) in
     if (n =? 0)%nat then None else Some n)
  /\ dict_get (format_counts now prompts) x
     = (let n := occurrences x (map (fun p => output_format (analyze_prompt p))
                                  prompts) in
        if (n =? 0)%nat then None else Some n)
  /\ list_sum (map snd (context_counts now prompts)) = List.length prompts
  /\ list_sum (map snd (format_counts now prompts)) = List.length prompts.
Proof.
  unfold context_counts, format_counts, tally, enhance_prompt.
  cbn [enhanced_prompt context output_format]. cbv zeta.
  rewrite !fold_count_get, !fold_count_sum, !length_map. cbn [dict_get].
  repeat split;
    match goal with
    | |- context [occurrences ?a ?b] => now destruct (occurrences a b)
    end.
Qed.

(** ** More on the context *)

Lemma keyword_count_zero (keywords : list string) (t : string) :
  keyword_count keywords t = 0 <->
  forall keyword, In keyword keywords -> contains keyword t = false.
Proof.
  unfold keyword_count. induction keywords as [|k ks IH]; cbn [filter].
  - split; [intros _ k [] | reflexivity].
  - destruct (contains k t) eqn:C; cbn [List.length].
    + split; [discriminate|]. intros H.
      specialize (H k (or_introl eq_refl)). congruence.
    + rewrite IH. split.
      * intros H k' [<-|I]; [exact C | now apply H].
      * intros H k' I. apply H. now right.
Qed.

Lemma dict_get_unique {V : Type} (d : list (string * V)) (k : string)
      (v : V) :
  NoDup (map fst d) -> In (k, v) d -> dict_get d k = Some v.
Proof.
  induction d as [|[k' v'] d IH]; [intros _ []|]. cbn [map fst dict_get].
  intros N I. inversion N as [|x l Nin N']; subst.
  destruct I as [[= -> ->]|I]; [now rewrite String.eqb_refl|].
  destruct (String.eqb_spec k' k) as [->|_]; [|now apply IH].
  elim Nin. apply in_map_iff. now exists (k, v).
Qed.

Lemma categories_nodup : NoDup (map fst context_keywords).
Proof.
  cbn.
  repeat (constructor;
          [cbn; intros H; repeat (destruct H as [H|H]; [discriminate H|]);
           exact H|]).
  constructor.
Qed.

Lemma category_score_zero (c text : string) :
  In c categories ->
  (category_score c text = 0 <->
   forall keywords keyword,
     In (c, keywords) context_keywords -> In keyword keywords ->
     ~ occurs_ci keyword text).
Proof.
  intros I. unfold category_score.
  destruct (dict_get context_keywords c) as [kws|] eqn:D.
  - rewrite keyword_count_zero. split.
    + intros H keywords keyword Ic Ik. apply contains_lower_not_ci.
      apply H. rewrite (dict_get_unique _ _ _ categories_nodup Ic) in D.
      now injection D as <-.
    + intros H keyword Ik. apply contains_lower_not_ci.
      apply (H kws); [now apply dict_get_in | exact Ik].
  - exfalso. cbn in I.
    repeat (destruct I as [<-|I]; [discriminate D|]). destruct I.
Qed.

(** X20.  The context is "general" exactly when no keyword of any of the
    five categories occurs in the text, the case ignored. *)
Theorem detect_context_general_iff (text : string) :
  detect_context text = "general" <->
  forall c keywords keyword,
    In (c, keywords) context_keywords -> In keyword keywords ->
    ~ occurs_ci keyword text.
Proof.
  assert (K : forall c keywords,
             In (c, keywords) context_keywords -> In c categories).
  { intros c keywords I. change categories with (map fst context_keywords).
    apply in_map_iff. now exists (c, keywords). }
  destruct (detect_context_cases text) as [[E Z]|(b & a & E & P & _)].
  - split; [|intros _; exact E]. intros _ c keywords keyword Ic.
    apply (category_score_zero c text (K _ _ Ic)); [|exact Ic].
    rewrite Forall_forall in Z. apply Z. exact (K _ _ Ic).
  - assert (I : In (detect_context text) categories)
      by (rewrite E; apply in_or_app; right; now left).
    split.
    + intros G. rewrite G in I. cbn in I.
      repeat (destruct I as [I|I]; [discriminate I|]). destruct I.
    + intros H. exfalso.
      assert (Z : category_score (detect_context text) text = 0)
        by (apply (category_score_zero _ text I); intros; eapply H;
            eassumption).
      lia.
Qed.

(** X21.  A category that scores strictly above every other category is
    the context. *)
Theorem detect_context_dominant (text c : string) :
  In c categories ->
  (forall c', In c' categories -> c' <> c ->
              category_score c' text < category_score c text) ->
  detect_context text = c.
Proof.
  intros I D.
  destruct (detect_context_cases text) as [[_ Z]|(b & a & E & P & B & A')].
  - exfalso. rewrite Forall_forall in Z. pose proof (Z c I) as Zc.
    destruct (string_dec c "technical") as [->|N].
    + assert (J : In "business" categories) by (cbn; auto 10).
      specialize (D "business" J). specialize (Z _ J).
      assert ("business" <> "technical") by discriminate. intuition lia.
    + assert (J : In "technical" categories) by (cbn; auto 10).
      specialize (D "technical" J). specialize (Z _ J).
      assert ("technical" <> c) by congruence. intuition lia.
  - destruct (string_dec (detect_context text) c) as [Y|N]; [exact Y|].
    exfalso.
    assert (J : In (detect_context text) categories)
      by (rewrite E; apply in_or_app; right; now left).
    pose proof (D _ J N) as Lt.
    rewrite E in I. apply in_app_or in I. rewrite Forall_forall in B, A'.
    destruct I as [I|[I|I]].
    + specialize (B c I). cbv beta in B. lia.
    + congruence.
    + specialize (A' c I). cbv beta in A'. lia.
Qed.

Lemma detect_context_dominant_witness :
  detect_context "Compare React and Vue.js" = "analytical".
Proof.
  apply detect_context_dominant; [cbn; auto 10|].
  intros c' I N. cbn in I.
  repeat (destruct I as [<-|I]; [first [now elim N | vm_compute; lia]|]).
  destruct I.
Defined.

(** ** More on what cleaning removes *)

(** X22.  When the collapsed text begins with none of the fillers followed
    by whitespace, cleaning is trimming and whitespace collapsing and
    nothing more: a filler further on in the text stays. *)
Theorem clean_prompt_without_leading_filler (prompt : string) :
  existsb (fun w => begins_with_filler w (collapse (strip prompt)))
    filler_words = false ->
  clean_prompt prompt = collapse (strip prompt).
Proof.
  intros H. rewrite clean_prompt_unfold. now apply fold_strip_filler_id.
Qed.

Lemma clean_prompt_without_leading_filler_witness :
  clean_prompt "Tell me,   please, what I need  "
  = collapse (strip "Tell me,   please, what I need  ").
Proof.
  apply clean_prompt_without_leading_filler. vm_compute. reflexivity.
Defined.

Lemma nonspace_app (a b : string) :
  nonspace (a ++ b) = nonspace a ++ nonspace b.
Proof.
  induction a as [|c a IH]; [reflexivity|]. cbn [append nonspace].
  destruct (isspace c); [exact IH | cbn; now rewrite IH].
Qed.

Lemma nonspace_lstrip (s : string) : nonspace (lstrip s) = nonspace s.
Proof.
  induction s as [|c s IH]; [reflexivity|]. cbn [lstrip].
  destruct (isspace c) eqn:E; [|reflexivity]. cbn [nonspace].
  now rewrite E.
Qed.

Lemma nonspace_rstrip (s : string) : nonspace (rstrip s) = nonspace s.
Proof.
  induction s as [|c s IH]; [reflexivity|]. cbn [rstrip].
  destruct (rstrip s) as [|d r].
  - cbn [nonspace] in *. rewrite <- IH.
    destruct (isspace c) eqn:E; [reflexivity|]. cbn [nonspace]. now rewrite E.
  - change (nonspace (String c (String d r)))
      with (if isspace c then nonspace (String d r)
            else String c (nonspace (String d r))).
    cbn [nonspace] in *. now rewrite IH.
Qed.

Lemma nonspace_collapse_go (total n : nat) :
  forall s, String.length s <= n ->
            nonspace (sub_go false total whitespace_run " " 0 s) = nonspace s.
Proof.
  induction n as [|n IH]; intros s L.
  - destruct s; [reflexivity | simpl in L; lia].
  - destruct s as [|c s]; [reflexivity|]. rewrite collapse_go_cons.
    simpl in L. destruct (isspace c) eqn:E; cbn [nonspace]; rewrite E.
    + change (isspace " ") with true. cbn iota.
      pose proof (suffix_of_length _ _ (lstrip_suffix s)) as L'.
      rewrite IH by lia. apply nonspace_lstrip.
    + rewrite IH by lia. reflexivity.
Qed.

Lemma nonspace_suffix (a b : string) :
  suffix_of a b -> suffix_of (nonspace a) (nonspace b).
Proof. intros [pre ->]. exists (nonspace pre). apply nonspace_app. Qed.

(** X23.  Cleaning only deletes: trimming and whitespace collapsing keep
    every character that is not whitespace, in its place in the order, and
    the characters of the cleaned text that are not whitespace are the
    last ones of the prompt, what went before them being fillers. *)
Theorem clean_prompt_keeps_content (prompt : string) :
  nonspace (collapse (strip prompt)) = nonspace prompt
  /\ suffix_of (nonspace (clean_prompt prompt)) (nonspace prompt).
Proof.
  assert (E : nonspace (collapse (strip prompt)) = nonspace prompt).
  { unfold collapse, Re.sub.
    rewrite (nonspace_collapse_go _ _ _ (le_n _)). unfold strip.
    now rewrite nonspace_rstrip, nonspace_lstrip. }
  split; [exact E|]. rewrite <- E. apply nonspace_suffix.
  apply clean_prompt_suffix.
Qed.
